(** * MediReminder: the reminder store of [src/App.tsx]

    A shallow embedding of the state and the handlers of the [App]
    component: the medication list, the pending banner notifications, the
    creation form, the periodic due check and the storage round trip. *)

From Stdlib Require Import List ZArith NArith Bool Ascii String Lia.
From Stdlib Require Import DecimalString DecimalZ SpecFloat.
Import ListNotations.

Local Open Scope Z_scope.

(** ** JavaScript strings and numbers *)

Module JS.

(** A JavaScript string is a sequence of UTF-16 code units. *)
Definition jsstring := list N.

(** A string literal of the source (its characters are all ASCII). *)
Definition lit (s : string) : jsstring :=
  map N_of_ascii (list_ascii_of_string s).

(** [a === b] on strings. *)
Fixpoint str_eqb (a b : jsstring) : bool :=
  match a, b with
  | [], [] => true
  | c :: a', d :: b' => N.eqb c d && str_eqb a' b'
  | _, _ => false
  end.

(** [s.startsWith(t)], the test [includes] repeats at every position. *)
Fixpoint startsWith (s t : jsstring) {struct t} : bool :=
  match t, s with
  | [], _ => true
  | c :: t', d :: s' => N.eqb c d && startsWith s' t'
  | _ :: _, [] => false
  end.

(** [s.includes(t)]. *)
Fixpoint includes (s t : jsstring) : bool :=
  startsWith s t ||
  match s with
  | [] => false
  | _ :: s' => includes s' t
  end.

(** [s.split(sep)] for a one-unit separator: never the empty array. *)
Fixpoint split (sep : N) (s : jsstring) : list jsstring :=
  match s with
  | [] => [[]]
  | c :: s' =>
      if N.eqb c sep then [] :: split sep s'
      else match split sep s' with
           | seg :: segs => (c :: seg) :: segs
           | [] => [[c]]
           end
  end.

(** A number is an IEEE 754 double: a signed zero, a signed infinity, NaN,
    or a finite [m * 2 ^ e] with a sign. The operations are those of the
    standard library's specification of binary64 (53 bits of precision),
    which round to nearest, ties to even. *)
Definition number := spec_float.
Definition NaN : number := S754_nan.

(** The double of an integer literal or of an integer the platform
    returns. *)
Definition ofZ (z : Z) : number := binary_normalize 53 1024 z 0 false.

(** [a * b] *)
Definition mul (a b : number) : number := SFmul 53 1024 a b.
(** [a + b] *)
Definition add (a b : number) : number := SFadd 53 1024 a b.
(** [a >= b]: false as soon as one side is NaN. *)
Definition ge (a b : number) : bool := SFleb b a.

(** The code units that [Number] strips on both sides (StrWhiteSpaceChar). *)
Definition isStrWhiteSpace (c : N) : bool :=
  ((9 <=? c) && (c <=? 13) || (c =? 32) || (c =? 160) || (c =? 5760) ||
   (8192 <=? c) && (c <=? 8202) || (c =? 8232) || (c =? 8233) ||
   (c =? 8239) || (c =? 8287) || (c =? 12288) || (c =? 65279))%N.

Fixpoint dropWhile {A} (p : A -> bool) (l : list A) : list A :=
  match l with
  | [] => []
  | x :: l' => if p x then dropWhile p l' else l
  end.

Fixpoint prefixWhile {A} (p : A -> bool) (l : list A) : list A :=
  match l with
  | [] => []
  | x :: l' => if p x then x :: prefixWhile p l' else []
  end.

Definition trim (s : jsstring) : jsstring :=
  rev (dropWhile isStrWhiteSpace (rev (dropWhile isStrWhiteSpace s))).

Definition isDigit (c : N) : bool := ((48 <=? c) && (c <=? 57))%N.

(** The value of a digit in a base up to 16, [None] when the unit is not a
    digit of that base. *)
Definition digitIn (base : Z) (c : N) : option Z :=
  let v := if ((48 <=? c) && (c <=? 57))%N then Some (Z.of_N c - 48)
           else if ((97 <=? c) && (c <=? 102))%N then Some (Z.of_N c - 87)
           else if ((65 <=? c) && (c <=? 70))%N then Some (Z.of_N c - 55)
           else None in
  match v with
  | Some d => if d <? base then Some d else None
  | None => None
  end.

(** The integer written by a run of digits of a base, read left to right;
    [None] when a unit is not a digit of the base. *)
Fixpoint digitsValue (base acc : Z) (s : jsstring) : option Z :=
  match s with
  | [] => Some acc
  | c :: s' =>
      match digitIn base c with
      | Some d => digitsValue base (base * acc + d) s'
      | None => None
      end
  end.

Definition decimalDigits (s : jsstring) : Z :=
  match digitsValue 10 0 s with Some z => z | None => 0 end.

(** The double nearest to [m * 10 ^ e] for [m >= 0], with the sign [neg]:
    an integer is rounded as it is, a quotient by a power of ten is rounded
    once, from the exact quotient. *)
Definition decimalValue (neg : bool) (m e : Z) : number :=
  match m with
  | Zpos p =>
      if 0 <=? e
      then binary_normalize 53 1024
             (if neg then - (m * 10 ^ e) else m * 10 ^ e) 0 neg
      else SFdiv 53 1024 (S754_finite neg p 0)
                 (S754_finite false (Z.to_pos (10 ^ (- e))) 0)
  | _ => S754_zero neg
  end.

(** NonDecimalIntegerLiteral: [0x], [0o] or [0b], in either case, and at
    least one digit of the base. [None] when the string has no such
    prefix. *)
Definition nonDecimal (s : jsstring) : option number :=
  match s with
  | z :: p :: ds =>
      if negb (z =? 48)%N then None else
      let base := if (p =? 120)%N || (p =? 88)%N then 16
                  else if (p =? 111)%N || (p =? 79)%N then 8
                  else if (p =? 98)%N || (p =? 66)%N then 2
                  else 0 in
      if base =? 0 then None else
      match ds with
      | [] => Some NaN
      | _ => match digitsValue base 0 ds with
             | Some v => Some (ofZ v)
             | None => Some NaN
             end
      end
  | _ => None
  end.

(** StrUnsignedDecimalLiteral, after the sign: [Infinity], or digits with
    an optional fraction and an optional exponent, and nothing after. *)
Definition unsignedDecimal (neg : bool) (s : jsstring) : number :=
  if str_eqb s (lit "Infinity") then S754_infinity neg else
  let int := prefixWhile isDigit s in
  let s1 := dropWhile isDigit s in
  let '(frac, s2) :=
    match s1 with
    | c :: r => if (c =? 46)%N
                then (prefixWhile isDigit r, dropWhile isDigit r)
                else ([], s1)
    | [] => ([], s1)
    end in
  match int, frac with
  | [], [] => NaN
  | _, _ =>
      let m := decimalDigits (int ++ frac) in
      let scale := - Z.of_nat (List.length frac) in
      match s2 with
      | [] => decimalValue neg m scale
      | c :: r =>
          if negb ((c =? 101)%N || (c =? 69)%N) then NaN else
          let '(eneg, ds) :=
            match r with
            | g :: r' => if (g =? 45)%N then (true, r')
                         else if (g =? 43)%N then (false, r')
                         else (false, r)
            | [] => (false, r)
            end in
          match ds with
          | [] => NaN
          | _ => match digitsValue 10 0 ds with
                 | Some x =>
                     decimalValue neg m (scale + (if eneg then - x else x))
                 | None => NaN
                 end
          end
      end
  end.

(** [Number(s)] on a string (StringToNumber): white space is stripped on
    both sides; the empty string is 0; then a literal with a base prefix, or
    a decimal literal with an optional sign; anything else is NaN. A decimal
    literal is rounded from its exact value, however many digits it has. *)
Definition Number (s : jsstring) : number :=
  match trim s with
  | [] => S754_zero false
  | c :: r =>
      match nonDecimal (c :: r) with
      | Some v => v
      | None =>
          if (c =? 43)%N then unsignedDecimal false r
          else if (c =? 45)%N then unsignedDecimal true r
          else unsignedDecimal false (c :: r)
      end
  end.

(** [n.toString()] for an integer [n]: its decimal digits, with a minus
    sign when negative. *)
Definition toString (n : Z) : jsstring :=
  lit (NilZero.string_of_int (Z.to_int n)).

(** What the handlers read of a [Date]: the local hour and minute and the
    locale's date string. *)
Record Date := mkDate {
  getHours : Z;
  getMinutes : Z;
  toLocaleDateString : jsstring
}.

End JS.

Import JS.

(** ** The data model *)

Record Medication := mkMedication {
  id : jsstring;
  name : jsstring;
  dosage : jsstring;
  frequency : jsstring;
  time : jsstring;
  lastTaken : option jsstring;
  missed : bool
}.

(** The fields of the creation form ([newMedication]). *)
Record Form := mkForm {
  form_name : jsstring;
  form_dosage : jsstring;
  form_frequency : jsstring;
  form_time : jsstring
}.

(** The component's state: one field per [useState]. *)
Record State := mkState {
  medications : list Medication;
  newMedication : Form;
  showForm : bool;
  notifications : list jsstring
}.

Definition emptyForm : Form :=
  mkForm [] [] (lit "daily") (lit "08:00").

(** [{ ...med, missed: b }] *)
Definition with_missed (med : Medication) (b : bool) : Medication :=
  mkMedication (id med) (name med) (dosage med) (frequency med) (time med)
               (lastTaken med) b.

(** [{ ...med, lastTaken: today, missed: false }] *)
Definition with_taken (med : Medication) (today : jsstring) : Medication :=
  mkMedication (id med) (name med) (dosage med) (frequency med) (time med)
               (Some today) false.

Definition with_medications (st : State) (meds : list Medication) : State :=
  mkState meds (newMedication st) (showForm st) (notifications st).

Definition with_notifications (st : State) (ns : list jsstring) : State :=
  mkState (medications st) (newMedication st) (showForm st) ns.

(** ** The periodic check *)

(** [now.getHours() * 60 + now.getMinutes()] *)
Definition currentTime (now : Date) : number :=
  add (mul (ofZ (getHours now)) (ofZ 60)) (ofZ (getMinutes now)).

(** [const [hours, minutes] = med.time.split(':').map(Number)] and
    [hours * 60 + minutes]; a missing second part is [undefined], which makes
    the sum NaN. *)
Definition medicationTime (med : Medication) : number :=
  match map Number (split 58 (time med)) with
  | hours :: minutes :: _ => add (mul hours (ofZ 60)) minutes
  | _ => NaN
  end.

(** [med.lastTaken === today] *)
Definition takenToday (today : jsstring) (med : Medication) : bool :=
  match lastTaken med with
  | Some d => str_eqb d today
  | None => false
  end.

(** [`Time to take ${med.name} (${med.dosage})`] *)
Definition notificationText (med : Medication) : jsstring :=
  lit "Time to take " ++ name med ++ lit " (" ++ dosage med ++ lit ")".

(** The body of the [map] callback of [checkMedications]: the medication it
    returns and the banners it appends through [setNotifications]. The clock
    is the caller's [now], read once for the whole run. *)
Definition checkMed (now : Date) (med : Medication)
  : Medication * list jsstring :=
  let today := toLocaleDateString now in
  let shouldBeTaken := ge (currentTime now) (medicationTime med) in
  if shouldBeTaken && negb (takenToday today med) && negb (missed med)
  then (with_missed med true, [notificationText med])
  else (med, []).

(** [prevMeds.map(...)], threading the banners appended on the way. *)
Fixpoint checkAll (now : Date) (meds : list Medication)
  : list Medication * list jsstring :=
  match meds with
  | [] => ([], [])
  | med :: rest =>
      let (med', emitted) := checkMed now med in
      let (rest', emitted') := checkAll now rest in
      (med' :: rest', emitted ++ emitted')
  end.

(** [checkMedications], with the clock as an argument: the spec's
    [checkDue(now)]. The desktop notification it may also request leaves the
    state alone and is not modelled. *)
Definition checkMedications (now : Date) (st : State) : State :=
  let (meds', emitted) := checkAll now (medications st) in
  mkState meds' (newMedication st) (showForm st) (notifications st ++ emitted).

(** ** The handlers *)

(** [handleInputChange]: [{ ...prev, [name]: value }] for the four inputs of
    the form. *)
Inductive Input := InName | InDosage | InFrequency | InTime.

Definition handleInputChange (i : Input) (value : jsstring) (st : State)
  : State :=
  let f := newMedication st in
  let f' := match i with
            | InName => mkForm value (form_dosage f) (form_frequency f) (form_time f)
            | InDosage => mkForm (form_name f) value (form_frequency f) (form_time f)
            | InFrequency => mkForm (form_name f) (form_dosage f) value (form_time f)
            | InTime => mkForm (form_name f) (form_dosage f) (form_frequency f) value
            end in
  mkState (medications st) f' (showForm st) (notifications st).

(** A string is falsy exactly when it is empty. *)
Definition falsy (s : jsstring) : bool :=
  match s with [] => true | _ => false end.

Definition requiredFieldsAlert : jsstring :=
  lit "Please fill in all required fields".

(** [handleAddMedication]; [nowMs] is the reading of [Date.now()]. The
    result is the next state and the alert shown, if any. *)
Definition handleAddMedication (nowMs : Z) (st : State)
  : State * option jsstring :=
  let f := newMedication st in
  if falsy (form_name f) || falsy (form_dosage f)
  then (st, Some requiredFieldsAlert)
  else
    let newMed := mkMedication (toString nowMs) (form_name f) (form_dosage f)
                               (form_frequency f) (form_time f) None false in
    (mkState (medications st ++ [newMed]) emptyForm false (notifications st),
     None).

(** [handleDeleteMedication] *)
Definition handleDeleteMedication (i : jsstring) (st : State) : State :=
  with_medications st
    (filter (fun med => negb (str_eqb (id med) i)) (medications st)).

(** [handleTakeMedication]; [now] is the clock read for [today]. *)
Definition handleTakeMedication (now : Date) (i : jsstring) (st : State)
  : State :=
  let today := toLocaleDateString now in
  let meds' := map (fun med => if str_eqb (id med) i
                               then with_taken med today else med)
                   (medications st) in
  let notes' :=
    match find (fun med => str_eqb (id med) i) (medications st) with
    | Some medication =>
        filter (fun note => negb (includes note (name medication)))
               (notifications st)
    | None => notifications st
    end in
  mkState meds' (newMedication st) (showForm st) notes'.

(** [dismissNotification]: [prev.filter((_, i) => i !== index)] *)
Fixpoint removeAt {A} (index : nat) (l : list A) : list A :=
  match l, index with
  | [], _ => []
  | _ :: l', O => l'
  | x :: l', S k => x :: removeAt k l'
  end.

Definition dismissNotification (index : nat) (st : State) : State :=
  with_notifications st (removeAt index (notifications st)).


(** ** JSON text: [JSON.stringify] and [JSON.parse] *)

Module JSON.

(** A JSON value. A number keeps the text of its literal: no field of a
    medication is a number, and none is ever evaluated here. The members of
    an object are kept as written, in order. *)
#[local] Unset Elimination Schemes.
Inductive value :=
| Null
| Bool (b : bool)
| Num (literal : jsstring)
| Str (s : jsstring)
| Arr (items : list value)
| Obj (members : list (jsstring * value)).
#[local] Set Elimination Schemes.

(** *** Writing *)

Definition isLeadingSurrogate (c : N) : bool :=
  ((55296 <=? c) && (c <=? 56319))%N.
Definition isTrailingSurrogate (c : N) : bool :=
  ((56320 <=? c) && (c <=? 57343))%N.

(** One lowercase hexadecimal digit. *)
Definition hexDigit (n : N) : N :=
  (if n <? 10 then 48 + n else 87 + n)%N.

(** UnicodeEscape: a backslash, [u] and four hexadecimal digits. *)
Definition unicodeEscape (c : N) : jsstring :=
  [92; 117; hexDigit (c / 4096 mod 16); hexDigit (c / 256 mod 16);
   hexDigit (c / 16 mod 16); hexDigit (c mod 16)]%N.

(** QuoteJSONString on one code point below 65536. *)
Definition quoteUnit (c : N) : jsstring :=
  (if c =? 8 then [92; 98]
   else if c =? 9 then [92; 116]
   else if c =? 10 then [92; 110]
   else if c =? 12 then [92; 102]
   else if c =? 13 then [92; 114]
   else if c =? 34 then [92; 34]
   else if c =? 92 then [92; 92]
   else if (c <? 32) || isLeadingSurrogate c || isTrailingSurrogate c
        then unicodeEscape c
   else [c])%N.

(** QuoteJSONString without the surrounding quotes: a leading surrogate
    followed by a trailing one is a single code point and is copied. *)
Fixpoint quoteUnits (s : jsstring) : jsstring :=
  match s with
  | [] => []
  | c :: rest =>
      if isLeadingSurrogate c then
        match rest with
        | d :: rest' =>
            if isTrailingSurrogate d then c :: d :: quoteUnits rest'
            else unicodeEscape c ++ quoteUnits rest
        | [] => unicodeEscape c
        end
      else quoteUnit c ++ quoteUnits rest
  end.

Definition quote (s : jsstring) : jsstring :=
  (34 :: quoteUnits s ++ [34])%N.

(** The texts of the items of a list, a comma between two of them. *)
Fixpoint afterFirst {A} (f : A -> jsstring) (l : list A) : jsstring :=
  match l with
  | [] => []
  | y :: l' => (44 :: f y ++ afterFirst f l')%N
  end.

Definition commaSeparated {A} (f : A -> jsstring) (l : list A) : jsstring :=
  match l with
  | [] => []
  | x :: more => f x ++ afterFirst f more
  end.

(** [JSON.stringify(v)] with no indentation. A number is written as its
    literal. *)
Fixpoint stringify (v : value) : jsstring :=
  match v with
  | Null => lit "null"
  | Bool true => lit "true"
  | Bool false => lit "false"
  | Num literal => literal
  | Str s => quote s
  | Arr items => (91 :: commaSeparated stringify items ++ [93])%N
  | Obj members =>
      (123 :: commaSeparated
                (fun member => quote (fst member) ++
                               58 :: stringify (snd member))
                members ++ [125])%N
  end.

(** *** Reading *)

(** What a parsing function gives: a result, the SyntaxError that
    [JSON.parse] throws, or the exhaustion of the recursion budget. *)
Inductive result (A : Type) :=
| Ok (a : A)
| SyntaxError
| OutOfFuel.
Arguments Ok {A} a.
Arguments SyntaxError {A}.
Arguments OutOfFuel {A}.

Definition bind {A B} (r : result A) (k : A -> result B) : result B :=
  match r with
  | Ok a => k a
  | SyntaxError => SyntaxError
  | OutOfFuel => OutOfFuel
  end.

Notation "' p <- r ;; k" := (bind r (fun p => k))
  (at level 100, p pattern, r at next level, right associativity).

Definition isWs (c : N) : bool :=
  ((c =? 9) || (c =? 10) || (c =? 13) || (c =? 32))%N.

Definition skipWs (s : jsstring) : jsstring := dropWhile isWs s.

Definition unhexDigit (c : N) : option N :=
  (if (48 <=? c) && (c <=? 57) then Some (c - 48)
   else if (97 <=? c) && (c <=? 102) then Some (c - 87)
   else if (65 <=? c) && (c <=? 70) then Some (c - 55)
   else None)%N.

Definition unhex4 (a b c d : N) : option N :=
  match unhexDigit a, unhexDigit b, unhexDigit c, unhexDigit d with
  | Some x, Some y, Some z, Some w => Some (x * 4096 + y * 256 + z * 16 + w)%N
  | _, _, _, _ => None
  end.

(** The unit a one-letter escape stands for. *)
Definition simpleEscape (e : N) : option N :=
  (if e =? 34 then Some 34
   else if e =? 92 then Some 92
   else if e =? 47 then Some 47
   else if e =? 98 then Some 8
   else if e =? 102 then Some 12
   else if e =? 110 then Some 10
   else if e =? 114 then Some 13
   else if e =? 116 then Some 9
   else None)%N.

(** The characters of a string after its opening quote, up to and including
    the closing one. *)
Fixpoint parseChars (s : jsstring) : option (jsstring * jsstring) :=
  match s with
  | [] => None
  | c :: r =>
      if (c =? 34)%N then Some ([], r)
      else if (c =? 92)%N then
        match r with
        | [] => None
        | e :: r1 =>
            if (e =? 117)%N then
              match r1 with
              | h1 :: h2 :: h3 :: h4 :: r2 =>
                  match unhex4 h1 h2 h3 h4 with
                  | Some u =>
                      match parseChars r2 with
                      | Some (str, r3) => Some (u :: str, r3)
                      | None => None
                      end
                  | None => None
                  end
              | _ => None
              end
            else
              match simpleEscape e with
              | Some u =>
                  match parseChars r1 with
                  | Some (str, r2) => Some (u :: str, r2)
                  | None => None
                  end
              | None => None
              end
        end
      else if (c <? 32)%N then None
      else
        match parseChars r with
        | Some (str, r') => Some (c :: str, r')
        | None => None
        end
  end.

Fixpoint takeWhile {A} (p : A -> bool) (l : list A) : list A :=
  match l with
  | [] => []
  | x :: l' => if p x then x :: takeWhile p l' else []
  end.

(** A number literal: an optional minus, [0] or a digit run not starting with
    0, an optional fraction, an optional exponent. *)
Definition parseNumber (s : jsstring) : option (jsstring * jsstring) :=
  let (sign, s1) := match s with
                    | c :: r => if (c =? 45)%N then ([c], r) else ([], s)
                    | [] => ([], s)
                    end in
  match s1 with
  | [] => None
  | c :: r1 =>
      if negb (isDigit c) then None else
      let (int, s2) := if (c =? 48)%N then ([c], r1)
                       else (c :: takeWhile isDigit r1, dropWhile isDigit r1) in
      let frac :=
        match s2 with
        | p :: r2 =>
            if (p =? 46)%N then
              match takeWhile isDigit r2 with
              | [] => None
              | ds => Some (p :: ds, dropWhile isDigit r2)
              end
            else Some ([], s2)
        | [] => Some ([], s2)
        end in
      match frac with
      | None => None
      | Some (fr, s3) =>
          match s3 with
          | e :: r3 =>
              if (e =? 101)%N || (e =? 69)%N then
                let (esign, r4) :=
                  match r3 with
                  | g :: r' => if (g =? 43)%N || (g =? 45)%N
                               then ([g], r') else ([], r3)
                  | [] => ([], r3)
                  end in
                match takeWhile isDigit r4 with
                | [] => None
                | ds => Some (sign ++ int ++ fr ++ e :: esign ++ ds,
                              dropWhile isDigit r4)
                end
              else Some (sign ++ int ++ fr, s3)
          | [] => Some (sign ++ int ++ fr, s3)
          end
      end
  end.

Definition ofOption {A} (o : option A) : result A :=
  match o with Some a => Ok a | None => SyntaxError end.

(** [s] without the prefix [word], when it starts with it. *)
Fixpoint stripPrefix (word s : jsstring) : option jsstring :=
  match word with
  | [] => Some s
  | c :: word' =>
      match s with
      | d :: s' => if (c =? d)%N then stripPrefix word' s' else None
      | [] => None
      end
  end.

(** One of the words [null], [true] and [false]. *)
Definition parseWord (word : jsstring) (v : value) (s : jsstring)
  : result (value * jsstring) :=
  match stripPrefix word s with
  | Some r => Ok (v, r)
  | None => SyntaxError
  end.

Section Steps.

(** The three mutually recursive functions of the reader, each written over
    the other two. The input of each starts at a token: the caller skipped
    the white space before it. *)
Variable value_ : jsstring -> result (value * jsstring).
Variable elements_ : jsstring -> result (list value * jsstring).
Variable members_ : jsstring -> result (list (jsstring * value) * jsstring).

(** A value. *)
Definition valueStep (s : jsstring) : result (value * jsstring) :=
  match s with
  | [] => SyntaxError
  | c :: r =>
      if (c =? 34)%N then
        ' (str, r') <- ofOption (parseChars r) ;; Ok (Str str, r')
      else if (c =? 91)%N then
        match skipWs r with
        | [] => SyntaxError
        | d :: r' =>
            if (d =? 93)%N then Ok (Arr [], r')
            else ' (items, r2) <- elements_ (d :: r') ;; Ok (Arr items, r2)
        end
      else if (c =? 123)%N then
        match skipWs r with
        | [] => SyntaxError
        | d :: r' =>
            if (d =? 125)%N then Ok (Obj [], r')
            else ' (ms, r2) <- members_ (d :: r') ;; Ok (Obj ms, r2)
        end
      else if (c =? 110)%N then parseWord (lit "null") Null s
      else if (c =? 116)%N then parseWord (lit "true") (Bool true) s
      else if (c =? 102)%N then parseWord (lit "false") (Bool false) s
      else ' (literal, r') <- ofOption (parseNumber s) ;; Ok (Num literal, r')
  end.

(** The elements of a non-empty array, after its bracket, up to and
    including the closing bracket. *)
Definition elementsStep (s : jsstring) : result (list value * jsstring) :=
  ' (v, r) <- value_ s ;;
  match skipWs r with
  | [] => SyntaxError
  | d :: r1 =>
      if (d =? 44)%N then
        ' (vs, r2) <- elements_ (skipWs r1) ;; Ok (v :: vs, r2)
      else if (d =? 93)%N then Ok ([v], r1)
      else SyntaxError
  end.

(** The members of a non-empty object, after its brace, up to and including
    the closing brace. *)
Definition membersStep (s : jsstring)
  : result (list (jsstring * value) * jsstring) :=
  match s with
  | [] => SyntaxError
  | c :: r =>
      if negb (c =? 34)%N then SyntaxError else
      ' (k, r1) <- ofOption (parseChars r) ;;
      match skipWs r1 with
      | [] => SyntaxError
      | d :: r2 =>
          if negb (d =? 58)%N then SyntaxError else
          ' (v, r3) <- value_ (skipWs r2) ;;
          match skipWs r3 with
          | [] => SyntaxError
          | e :: r4 =>
              if (e =? 44)%N then
                ' (ms, r5) <- members_ (skipWs r4) ;; Ok ((k, v) :: ms, r5)
              else if (e =? 125)%N then Ok ([(k, v)], r4)
              else SyntaxError
          end
      end
  end.

End Steps.

(** The reader, with a budget of nested calls. *)
Fixpoint parseValue (fuel : nat) (s : jsstring) : result (value * jsstring) :=
  match fuel with
  | O => OutOfFuel
  | S fuel' => valueStep (parseElements fuel') (parseMembers fuel') s
  end
with parseElements (fuel : nat) (s : jsstring)
  : result (list value * jsstring) :=
  match fuel with
  | O => OutOfFuel
  | S fuel' => elementsStep (parseValue fuel') (parseElements fuel') s
  end
with parseMembers (fuel : nat) (s : jsstring)
  : result (list (jsstring * value) * jsstring) :=
  match fuel with
  | O => OutOfFuel
  | S fuel' => membersStep (parseValue fuel') (parseMembers fuel') s
  end.

(** [JSON.parse(text)]: one value, white space around it allowed, nothing
    else. Two units of budget per unit of text are enough: the budget never
    runs out ([parse_total] below). *)
Definition parse (text : jsstring) : result value :=
  ' (v, r) <- parseValue (S (2 * List.length text)) (skipWs text) ;;
  match skipWs r with
  | [] => Ok v
  | _ => SyntaxError
  end.

(** The values with no number in them: what the store writes. *)
Fixpoint numFree (v : value) : bool :=
  match v with
  | Num _ => false
  | Arr items => forallb numFree items
  | Obj members => forallb (fun member => numFree (snd member)) members
  | _ => true
  end.

(** What is asked of a reading function: [shrinks] says that it consumes
    input, [grows f g] that [g] keeps every answer [f] reached within its
    budget. *)
Definition shrinks {A} (f : jsstring -> result (A * jsstring)) : Prop :=
  forall s a r, f s = Ok (a, r) -> (List.length r < List.length s)%nat.

Definition grows {A} (f g : jsstring -> result A) : Prop :=
  forall s, f s <> OutOfFuel -> g s = f s.

(** The text of one member of an object. *)
Definition memberText (member : jsstring * value) : jsstring :=
  (quote (fst member) ++ 58 :: stringify (snd member))%N.

(** [v] is read back from its text, whatever follows the text. *)
Definition readsBack (v : value) : Prop :=
  forall rest, exists fuel,
    parseValue fuel (stringify v ++ rest) = Ok (v, rest).

End JSON.

(** ** Persistence *)

(** The object [JSON.stringify] sees for a medication: its seven properties
    in the order the object literals of the handlers create them. *)
Definition toJSON (med : Medication) : JSON.value :=
  JSON.Obj
    [ (lit "id", JSON.Str (id med));
      (lit "name", JSON.Str (name med));
      (lit "dosage", JSON.Str (dosage med));
      (lit "frequency", JSON.Str (frequency med));
      (lit "time", JSON.Str (time med));
      (lit "lastTaken", match lastTaken med with
                        | Some d => JSON.Str d
                        | None => JSON.Null
                        end);
      (lit "missed", JSON.Bool (missed med)) ].

Definition medicationsValue (meds : list Medication) : JSON.value :=
  JSON.Arr (map toJSON meds).

(** Reading a property of a parsed object: of two members with one key the
    later one is the property's value. *)
Fixpoint getProperty (key : jsstring) (members : list (jsstring * JSON.value))
  : option JSON.value :=
  match members with
  | [] => None
  | (k, v) :: more =>
      match getProperty key more with
      | Some v' => Some v'
      | None => if str_eqb k key then Some v else None
      end
  end.

Definition asString (o : option JSON.value) : option jsstring :=
  match o with Some (JSON.Str s) => Some s | _ => None end.

(** A parsed value seen at the type [Medication]; [None] when it does not
    have that type (the cast of the source does not look). *)
Definition asMedication (v : JSON.value) : option Medication :=
  match v with
  | JSON.Obj ms =>
      match asString (getProperty (lit "id") ms),
            asString (getProperty (lit "name") ms),
            asString (getProperty (lit "dosage") ms),
            asString (getProperty (lit "frequency") ms),
            asString (getProperty (lit "time") ms),
            getProperty (lit "lastTaken") ms,
            getProperty (lit "missed") ms with
      | Some i, Some n, Some d, Some f, Some t, Some lt, Some (JSON.Bool b) =>
          match lt with
          | JSON.Str day => Some (mkMedication i n d f t (Some day) b)
          | JSON.Null => Some (mkMedication i n d f t None b)
          | _ => None
          end
      | _, _, _, _, _, _, _ => None
      end
  | _ => None
  end.

Fixpoint asMedicationList (items : list JSON.value)
  : option (list Medication) :=
  match items with
  | [] => Some []
  | v :: more =>
      match asMedication v, asMedicationList more with
      | Some m, Some ms => Some (m :: ms)
      | _, _ => None
      end
  end.

Definition asMedications (v : JSON.value) : option (list Medication) :=
  match v with
  | JSON.Arr items => asMedicationList items
  | _ => None
  end.

(** What [localStorage.getItem('medications')] returns: [None] is [null]. *)
Definition Storage := option jsstring.

(** [localStorage.setItem('medications', JSON.stringify(medications))] *)
Definition persist (meds : list Medication) : Storage :=
  Some (JSON.stringify (medicationsValue meds)).

(** The initializer of the [medications] state:
    [saved ? JSON.parse(saved) : []]. *)
Definition initialMedications (saved : Storage) : JSON.result JSON.value :=
  match saved with
  | None => JSON.Ok (JSON.Arr [])
  | Some text => if falsy text then JSON.Ok (JSON.Arr []) else JSON.parse text
  end.

(** ** Runs of the store *)

Inductive Op :=
| AddMedication (n d f t : jsstring) (nowMs : Z)
| DeleteMedication (i : jsstring)
| TakeMedication (i : jsstring) (now : Date)
| CheckDue (now : Date).

(** Filling the four inputs of the form and submitting it. *)
Definition addMedication (n d f t : jsstring) (nowMs : Z) (st : State)
  : State * option jsstring :=
  handleAddMedication nowMs
    (handleInputChange InTime t
      (handleInputChange InFrequency f
        (handleInputChange InDosage d
          (handleInputChange InName n st)))).

Definition step (st : State) (op : Op) : State :=
  match op with
  | AddMedication n d f t nowMs => fst (addMedication n d f t nowMs st)
  | DeleteMedication i => handleDeleteMedication i st
  | TakeMedication i now => handleTakeMedication now i st
  | CheckDue now => checkMedications now st
  end.

Definition run (ops : list Op) (st : State) : State :=
  fold_left step ops st.

Definition initialState : State := mkState [] emptyForm false [].

(** ** The properties, as the specification words them *)

(** The guard of the [map] callback, as one boolean. *)
Definition dueGuard (now : Date) (m : Medication) : bool :=
  ge (currentTime now) (medicationTime m)
  && negb (takenToday (toLocaleDateString now) m)
  && negb (missed m).

(** The banners one run of the check appends for one medication. *)
Definition emitted (now : Date) (med : Medication) : list jsstring :=
  snd (checkMed now med).

(** The time test of the callback, written out: the time string has at
    least two parts between colons, and the clock's sixty times the hour
    plus the minute is at least sixty times the first part plus the second,
    each part read by [Number], all in doubles. *)
Definition timeReached (now : Date) (m : Medication) : Prop :=
  exists hours minutes more,
    map Number (split 58 (time m)) = hours :: minutes :: more /\
    ge (add (mul (ofZ (getHours now)) (ofZ 60)) (ofZ (getMinutes now)))
       (add (mul hours (ofZ 60)) minutes) = true.

(** Due and unconfirmed at [now]: the time of day has reached the
    medication's, it was not taken on the day of [now], and it is not
    flagged yet. *)
Definition dueUnconfirmed (now : Date) (m : Medication) : Prop :=
  timeReached now m /\
  lastTaken m <> Some (toLocaleDateString now) /\
  missed m = false.

(** The invariant of the data model, read at the current time [now]. *)
Definition missedOnlyIfDue (now : Date) (st : State) : Prop :=
  forall m, In m (medications st) -> missed m = true ->
    lastTaken m <> Some (toLocaleDateString now) /\ timeReached now m.

(** A flag seen in a state of a run was set by a check of that run, at a
    time when the medication, as it is now, was due and not taken. *)
Definition flaggedByCheck (ops : list Op) (m : Medication) : Prop :=
  exists now,
    In (CheckDue now) ops /\
    lastTaken m <> Some (toLocaleDateString now) /\
    timeReached now m.

(** No operation of [ops] takes or deletes the id [i]. *)
Definition leavesAlone (i : jsstring) (ops : list Op) : Prop :=
  forall op, In op ops ->
    (forall now, op <> TakeMedication i now) /\ op <> DeleteMedication i.

(** [kept] is [meds] without its entries of id [i]: the other entries, each
    one once for each time it occurs, in their order. *)
Inductive withoutId (i : jsstring)
  : list Medication -> list Medication -> Prop :=
| withoutId_nil : withoutId i [] []
| withoutId_drop m meds kept :
    id m = i -> withoutId i meds kept -> withoutId i (m :: meds) kept
| withoutId_keep m meds kept :
    id m <> i -> withoutId i meds kept -> withoutId i (m :: meds) (m :: kept).

(** The value of a decimal digit. *)
Definition digitValue (c : N) : Z := Z.of_N c - 48.

(** Equality of two doubles as data. *)
Definition number_eqb (a b : number) : bool :=
  match a, b with
  | S754_nan, S754_nan => true
  | S754_zero s, S754_zero s' => Bool.eqb s s'
  | S754_infinity s, S754_infinity s' => Bool.eqb s s'
  | S754_finite s m e, S754_finite s' m' e' =>
      Bool.eqb s s' && Pos.eqb m m' && Z.eqb e e'
  | _, _ => false
  end.

(** The ten digits, and the integers below a bound. *)
Definition decimalDigitUnits : list N :=
  map N.of_nat (seq 48 10).

Definition below (n : Z) : list Z :=
  map Z.of_nat (seq 0 (Z.to_nat n)).

(** [t] occurs in [s]. *)
Definition substring (t s : jsstring) : Prop :=
  exists before after, s = before ++ t ++ after.

(** ** Example data *)

Definition aspirin : Medication :=
  mkMedication (lit "1700000000000") (lit "Aspirin") (lit "100mg")
               (lit "daily") (lit "08:00") None false.

Definition jan1 (h m : Z) : Date := mkDate h m (lit "1/1/2025").
Definition jan2 (h m : Z) : Date := mkDate h m (lit "1/2/2025").

(** ** The view *)

(** The badge of the Status column of the table. *)
Inductive Status := TakenToday | Missed | Pending.

(** [med.lastTaken === new Date().toLocaleDateString() ? ... : med.missed ?
    ... : ...]; [now] is the clock read while rendering. *)
Definition status (now : Date) (med : Medication) : Status :=
  if takenToday (toLocaleDateString now) med then TakenToday
  else if missed med then Missed
  else Pending.

(** [l.filter((_, i) => i !== index)], the positions counted from [from]. *)
Fixpoint filterOtherIndex {A} (index from : nat) (l : list A) : list A :=
  match l with
  | [] => []
  | x :: l' =>
      if Nat.eqb from index then filterOtherIndex index (S from) l'
      else x :: filterOtherIndex index (S from) l'
  end.

(** ** Desktop notifications *)

(** [Notification.permission] *)
Inductive Permission := PermissionGranted | PermissionDenied | PermissionDefault.

(** What the component asks of the platform. *)
Inductive Effect :=
| NewNotification (title body icon : jsstring)
| RequestPermission.

(** The desktop part of the callback, run for a medication that has just
    been found due: a notification when permission was granted, a request
    for permission unless it was denied. *)
Definition notifyDesktop (perm : Permission) (med : Medication)
  : list Effect :=
  match perm with
  | PermissionGranted =>
      [NewNotification (lit "Medication Reminder") (notificationText med)
                       (lit "/vite.svg")]
  | PermissionDenied => []
  | PermissionDefault => [RequestPermission]
  end.

(** The whole [map] callback of [checkMedications]: the medication it
    returns, the banners it appends and what it asks of the platform. *)
Definition checkMedWithDesktop (perm : Permission) (now : Date)
    (med : Medication) : Medication * list jsstring * list Effect :=
  let today := toLocaleDateString now in
  let shouldBeTaken := ge (currentTime now) (medicationTime med) in
  if shouldBeTaken && negb (takenToday today med) && negb (missed med)
  then (with_missed med true, [notificationText med], notifyDesktop perm med)
  else (med, [], []).

Fixpoint checkAllWithDesktop (perm : Permission) (now : Date)
    (meds : list Medication)
  : list Medication * list jsstring * list Effect :=
  match meds with
  | [] => ([], [], [])
  | med :: rest =>
      let '(med', emitted, effects) := checkMedWithDesktop perm now med in
      let '(rest', emitted', effects') := checkAllWithDesktop perm now rest in
      (med' :: rest', emitted ++ emitted', effects ++ effects')
  end.

(** [{ ...med, frequency: f }] *)
Definition with_frequency (med : Medication) (f : jsstring) : Medication :=
  mkMedication (id med) (name med) (dosage med) f (time med)
               (lastTaken med) (missed med).

(** ** Clock readings of a run *)

(** The readings of [Date.now()] at the additions of a run, in order. *)
Fixpoint addReadings (ops : list Op) : list Z :=
  match ops with
  | [] => []
  | AddMedication _ _ _ _ nowMs :: more => nowMs :: addReadings more
  | _ :: more => addReadings more
  end.

(** * Properties *)

(** ** Strings *)

Lemma str_eqb_eq (a b : jsstring) : str_eqb a b = true <-> a = b.
Proof.
  revert b; induction a as [|c a IH]; intros [|d b]; simpl;
    try (split; [discriminate | discriminate]); try tauto.
  rewrite andb_true_iff, N.eqb_eq, IH.
  split; [intros [-> ->]; reflexivity | intros E; inversion E; auto].
Qed.

Lemma str_eqb_refl (a : jsstring) : str_eqb a a = true.
Proof. apply str_eqb_eq; reflexivity. Qed.

Lemma startsWith_prefix (s t : jsstring) :
  startsWith s t = true <-> exists after, s = t ++ after.
Proof.
  revert s; induction t as [|c t IH]; intros s; simpl.
  - split; [exists s; reflexivity | reflexivity].
  - destruct s as [|d s].
    + split; [discriminate | intros [a E]; discriminate].
    + rewrite andb_true_iff, N.eqb_eq, IH. split.
      * intros [-> [a ->]]. exists a; reflexivity.
      * intros [a E]. inversion E; subst. split; [reflexivity | exists a; reflexivity].
Qed.

Lemma includes_substring (s t : jsstring) :
  includes s t = true <-> substring t s.
Proof.
  unfold substring. induction s as [|d s IH].
  - simpl. rewrite orb_false_r, startsWith_prefix. split.
    + intros [a E]. exists [], a. exact E.
    + intros [b [a E]]. destruct b; [exists a; exact E | discriminate].
  - cbn [includes]. rewrite orb_true_iff, startsWith_prefix, IH. split.
    + intros [[a E] | [b [a E]]].
      * exists [], a. exact E.
      * exists (d :: b), a. rewrite E. reflexivity.
    + intros [[|d' b] [a E]].
      * left. exists a. exact E.
      * right. inversion E; subst. exists b, a. reflexivity.
Qed.

(** ** Numbers *)

Lemma number_eqb_eq (a b : number) : number_eqb a b = true -> a = b.
Proof.
  destruct a as [s|s| |s m e], b as [s'|s'| |s' m' e']; simpl;
    try discriminate; auto.
  - intros H. apply Bool.eqb_prop in H. congruence.
  - intros H. apply Bool.eqb_prop in H. congruence.
  - rewrite !andb_true_iff, Pos.eqb_eq, Z.eqb_eq. intros [[H1 H2] H3].
    apply Bool.eqb_prop in H1. congruence.
Qed.

Lemma In_decimalDigitUnits (c : N) :
  isDigit c = true -> In c decimalDigitUnits.
Proof.
  unfold isDigit. rewrite andb_true_iff, !N.leb_le. intros [L U].
  unfold decimalDigitUnits. rewrite <- (N2Nat.id c).
  apply in_map, in_seq. lia.
Qed.

Lemma In_below (n z : Z) : 0 <= z < n -> In z (below n).
Proof.
  intros H. unfold below. rewrite <- (Z2Nat.id z) by lia.
  apply in_map, in_seq. lia.
Qed.

(** On a time of two digits, a colon and two digits the doubles of the
    callback are exact: every case is evaluated. *)
Lemma minutes_of_digits (h1 h2 m1 m2 : N) :
  isDigit h1 = true -> isDigit h2 = true ->
  isDigit m1 = true -> isDigit m2 = true ->
  add (mul (Number [h1; h2]) (ofZ 60)) (Number [m1; m2]) =
  ofZ ((10 * digitValue h1 + digitValue h2) * 60 +
       (10 * digitValue m1 + digitValue m2)).
Proof.
  intros H1 H2 H3 H4. apply number_eqb_eq.
  assert (T : forallb (fun a => forallb (fun b => forallb (fun c =>
                forallb (fun d =>
                  number_eqb
                    (add (mul (Number [a; b]) (ofZ 60)) (Number [c; d]))
                    (ofZ ((10 * digitValue a + digitValue b) * 60 +
                          (10 * digitValue c + digitValue d))))
                decimalDigitUnits) decimalDigitUnits) decimalDigitUnits)
              decimalDigitUnits = true) by (vm_compute; reflexivity).
  rewrite forallb_forall in T.
  specialize (T h1 (In_decimalDigitUnits h1 H1)).
  rewrite forallb_forall in T.
  specialize (T h2 (In_decimalDigitUnits h2 H2)).
  rewrite forallb_forall in T.
  specialize (T m1 (In_decimalDigitUnits m1 H3)).
  rewrite forallb_forall in T.
  exact (T m2 (In_decimalDigitUnits m2 H4)).
Qed.

(** The clock's minute count is exact for every hour and minute of a day. *)
Lemma currentTime_of_clock (now : Date) :
  0 <= getHours now <= 23 -> 0 <= getMinutes now <= 59 ->
  currentTime now = ofZ (getHours now * 60 + getMinutes now).
Proof.
  intros HH HM. unfold currentTime. apply number_eqb_eq.
  assert (T : forallb (fun h => forallb (fun mi =>
                number_eqb (add (mul (ofZ h) (ofZ 60)) (ofZ mi))
                           (ofZ (h * 60 + mi)))
                (below 60)) (below 24) = true) by (vm_compute; reflexivity).
  rewrite forallb_forall in T.
  specialize (T (getHours now) (In_below 24 (getHours now) ltac:(lia))).
  rewrite forallb_forall in T.
  exact (T (getMinutes now) (In_below 60 (getMinutes now) ltac:(lia))).
Qed.

(** A positive integer below 6100 is a double with a full mantissa whose
    value is the integer: every case is evaluated. *)
Lemma ofZ_small (z : Z) :
  1 <= z < 6100 ->
  exists m e,
    ofZ z = S754_finite false m e /\ e <= 0 /\
    2 ^ 52 <= Zpos m < 2 ^ 53 /\ Zpos m = z * 2 ^ (- e).
Proof.
  intros H.
  assert (T : forallb (fun x =>
                match ofZ (x + 1) with
                | S754_finite false m e =>
                    (e <=? 0) && (2 ^ 52 <=? Zpos m) && (Zpos m <? 2 ^ 53)
                    && (Zpos m =? (x + 1) * 2 ^ (- e))
                | _ => false
                end) (below 6099) = true) by (vm_compute; reflexivity).
  rewrite forallb_forall in T.
  specialize (T (z - 1) (In_below 6099 (z - 1) ltac:(lia))).
  replace (z - 1 + 1) with z in T by lia.
  destruct (ofZ z) as [s|s| |[|] m e]; try discriminate.
  rewrite !andb_true_iff, Z.leb_le, Z.leb_le, Z.ltb_lt, Z.eqb_eq in T.
  exists m, e. tauto.
Qed.

(** Two doubles with full mantissas compare as their values. *)
Lemma SFleb_full_mantissas (m1 m2 : positive) (e1 e2 z1 z2 : Z) :
  e1 <= 0 -> e2 <= 0 ->
  2 ^ 52 <= Zpos m1 < 2 ^ 53 -> 2 ^ 52 <= Zpos m2 < 2 ^ 53 ->
  Zpos m1 = z1 * 2 ^ (- e1) -> Zpos m2 = z2 * 2 ^ (- e2) ->
  SFleb (S754_finite false m1 e1) (S754_finite false m2 e2) = (z1 <=? z2).
Proof.
  intros He1 He2 B1 B2 V1 V2.
  assert (P1 : 0 < 2 ^ (- e1)) by (apply Z.pow_pos_nonneg; lia).
  assert (P2 : 0 < 2 ^ (- e2)) by (apply Z.pow_pos_nonneg; lia).
  unfold SFleb, SFcompare.
  destruct (Z.compare_spec e1 e2) as [E | L | G].
  - subst e2. change (Pos.compare_cont Eq m1 m2) with (Pos.compare m1 m2).
    rewrite Pos2Z.inj_compare, V1, V2.
    destruct (Z.compare_spec (z1 * 2 ^ (- e1)) (z2 * 2 ^ (- e1)));
      symmetry; [apply Z.leb_le | apply Z.leb_le | apply Z.leb_gt]; nia.
  - assert (D : 2 ^ (- e1) = 2 ^ (- e2) * 2 ^ (e2 - e1)).
    { rewrite <- Z.pow_add_r by lia. f_equal. lia. }
    assert (Q : 2 <= 2 ^ (e2 - e1)).
    { change 2 with (2 ^ 1) at 1. apply Z.pow_le_mono_r; lia. }
    symmetry. apply Z.leb_le. nia.
  - assert (D : 2 ^ (- e2) = 2 ^ (- e1) * 2 ^ (e1 - e2)).
    { rewrite <- Z.pow_add_r by lia. f_equal. lia. }
    assert (Q : 2 <= 2 ^ (e1 - e2)).
    { change 2 with (2 ^ 1) at 1. apply Z.pow_le_mono_r; lia. }
    symmetry. apply Z.leb_gt. nia.
Qed.

(** [>=] on the doubles of two small integers is [>=] on the integers. *)
Lemma ge_ofZ (c t : Z) :
  0 <= c < 6100 -> 0 <= t < 6100 ->
  ge (ofZ c) (ofZ t) = (t <=? c).
Proof.
  intros Hc Ht. unfold ge.
  destruct (Z.eq_dec t 0) as [-> | Nt], (Z.eq_dec c 0) as [-> | Nc].
  - reflexivity.
  - destruct (ofZ_small c ltac:(lia)) as [m [e [-> _]]].
    symmetry. apply Z.leb_le. lia.
  - destruct (ofZ_small t ltac:(lia)) as [m [e [-> _]]].
    symmetry. apply Z.leb_gt. lia.
  - destruct (ofZ_small c ltac:(lia)) as [mc [ec [-> [Ec [Bc Vc]]]]].
    destruct (ofZ_small t ltac:(lia)) as [mt [et [-> [Et [Bt Vt]]]]].
    apply SFleb_full_mantissas; assumption.
Qed.

Lemma split_time_digits (h1 h2 m1 m2 : N) :
  isDigit h1 = true -> isDigit h2 = true ->
  isDigit m1 = true -> isDigit m2 = true ->
  split 58 [h1; h2; 58; m1; m2]%N = [[h1; h2]; [m1; m2]].
Proof.
  unfold isDigit. rewrite !andb_true_iff, !N.leb_le.
  intros [L1 U1] [L2 U2] [L3 U3] [L4 U4]. cbn [split].
  replace (h1 =? 58)%N with false by (symmetry; apply N.eqb_neq; lia).
  replace (h2 =? 58)%N with false by (symmetry; apply N.eqb_neq; lia).
  replace (m1 =? 58)%N with false by (symmetry; apply N.eqb_neq; lia).
  replace (m2 =? 58)%N with false by (symmetry; apply N.eqb_neq; lia).
  reflexivity.
Qed.

Lemma medicationTime_of_digits (h1 h2 m1 m2 : N) (m : Medication) :
  isDigit h1 = true -> isDigit h2 = true ->
  isDigit m1 = true -> isDigit m2 = true ->
  time m = [h1; h2; 58; m1; m2]%N ->
  medicationTime m =
    ofZ ((10 * digitValue h1 + digitValue h2) * 60 +
         (10 * digitValue m1 + digitValue m2)).
Proof.
  intros H1 H2 H3 H4 E. unfold medicationTime.
  rewrite E, (split_time_digits h1 h2 m1 m2 H1 H2 H3 H4). cbn [map].
  apply minutes_of_digits; assumption.
Qed.

Lemma digitValue_bounds (c : N) : isDigit c = true -> 0 <= digitValue c <= 9.
Proof.
  unfold isDigit, digitValue. rewrite andb_true_iff, !N.leb_le. lia.
Qed.

(** For a time of two digits, a colon and two digits and a clock within the
    day, the time test of the callback is the comparison of the two minute
    counts as integers. *)
Lemma time_test_in_minutes (now : Date) (h1 h2 m1 m2 : N) (m : Medication) :
  isDigit h1 = true -> isDigit h2 = true ->
  isDigit m1 = true -> isDigit m2 = true ->
  time m = [h1; h2; 58; m1; m2]%N ->
  0 <= getHours now <= 23 -> 0 <= getMinutes now <= 59 ->
  ge (currentTime now) (medicationTime m) =
  ((10 * digitValue h1 + digitValue h2) * 60 +
   (10 * digitValue m1 + digitValue m2) <=?
   getHours now * 60 + getMinutes now).
Proof.
  intros H1 H2 H3 H4 E HH HM.
  rewrite (medicationTime_of_digits h1 h2 m1 m2 m H1 H2 H3 H4 E).
  rewrite (currentTime_of_clock now HH HM).
  pose proof (digitValue_bounds h1 H1). pose proof (digitValue_bounds h2 H2).
  pose proof (digitValue_bounds m1 H3). pose proof (digitValue_bounds m2 H4).
  apply ge_ofZ; lia.
Qed.

(** ** The periodic check, one medication at a time *)

Lemma takenToday_true (today : jsstring) (m : Medication) :
  takenToday today m = true <-> lastTaken m = Some today.
Proof.
  unfold takenToday. destruct (lastTaken m) as [d|].
  - rewrite str_eqb_eq. split; congruence.
  - split; discriminate.
Qed.

Lemma ge_NaN (a : number) : ge a NaN = false.
Proof. reflexivity. Qed.

Lemma ge_currentTime (now : Date) (m : Medication) :
  ge (currentTime now) (medicationTime m) = true <-> timeReached now m.
Proof.
  unfold medicationTime, currentTime, timeReached.
  destruct (map Number (split 58 (time m))) as [|hours [|minutes more]].
  - rewrite ge_NaN. split; [discriminate | intros [h [mi [r [E _]]]]; discriminate].
  - rewrite ge_NaN. split; [discriminate | intros [h [mi [r [E _]]]]; discriminate].
  - split.
    + intros H. exists hours, minutes, more. split; [reflexivity | exact H].
    + intros [h [mi [r [E H]]]]. inversion E; subst. exact H.
Qed.

Lemma dueGuard_dueUnconfirmed (now : Date) (m : Medication) :
  dueGuard now m = true <-> dueUnconfirmed now m.
Proof.
  unfold dueGuard, dueUnconfirmed.
  rewrite !andb_true_iff, !negb_true_iff, ge_currentTime.
  rewrite <- (not_true_iff_false (takenToday _ _)), takenToday_true.
  tauto.
Qed.

Lemma checkMed_guard (now : Date) (m : Medication) :
  checkMed now m =
  if dueGuard now m then (with_missed m true, [notificationText m])
  else (m, []).
Proof. reflexivity. Qed.

Lemma checkAll_map (now : Date) (meds : list Medication) :
  checkAll now meds =
  (map (fun m => fst (checkMed now m)) meds,
   List.concat (map (emitted now) meds)).
Proof.
  induction meds as [|m meds IH]; simpl; [reflexivity|].
  rewrite IH. unfold emitted. destruct (checkMed now m). reflexivity.
Qed.

Lemma checkMedications_medications (now : Date) (st : State) :
  medications (checkMedications now st) =
  map (fun m => fst (checkMed now m)) (medications st).
Proof. unfold checkMedications. rewrite checkAll_map. reflexivity. Qed.

Lemma checkMedications_notifications (now : Date) (st : State) :
  notifications (checkMedications now st) =
  notifications st ++ List.concat (map (emitted now) (medications st)).
Proof. unfold checkMedications. rewrite checkAll_map. reflexivity. Qed.

Lemma concat_emitted_filter (now : Date) (meds : list Medication) :
  List.concat (map (emitted now) meds) =
  map notificationText (filter (dueGuard now) meds).
Proof.
  induction meds as [|m meds IH]; simpl; [reflexivity|].
  unfold emitted at 1. rewrite checkMed_guard.
  destruct (dueGuard now m); simpl; rewrite IH; reflexivity.
Qed.

(** C1. One run of the check flags exactly the medications that are due and
    unconfirmed at [now]: the time test of the callback passes (for a time
    written as two digits, a colon and two digits and a clock within the
    day: sixty times the hour plus the minute of the medication is at most
    that of the clock), [lastTaken] is not the date of [now], and [missed]
    is false. Position by position, such a medication comes back with
    [missed] true and its other six fields as they were, every other
    medication comes back as it was; the run appends one banner
    "Time to take {name} ({dosage})" for each flagged medication, in order,
    and none for the others; the form is not touched. *)
Theorem checkDue_flags_and_notifies (now : Date) (st : State) :
  exists due : Medication -> bool,
    (forall m, due m = true <-> dueUnconfirmed now m) /\
    (forall m h1 h2 m1 m2,
       isDigit h1 = true -> isDigit h2 = true ->
       isDigit m1 = true -> isDigit m2 = true ->
       time m = [h1; h2; 58; m1; m2]%N ->
       0 <= getHours now <= 23 -> 0 <= getMinutes now <= 59 ->
       (due m = true <->
        (10 * (Z.of_N h1 - 48) + (Z.of_N h2 - 48)) * 60 +
        (10 * (Z.of_N m1 - 48) + (Z.of_N m2 - 48))
        <= getHours now * 60 + getMinutes now /\
        lastTaken m <> Some (toLocaleDateString now) /\
        missed m = false)) /\
    Forall2
      (fun m m' =>
         id m' = id m /\ name m' = name m /\ dosage m' = dosage m /\
         frequency m' = frequency m /\ time m' = time m /\
         lastTaken m' = lastTaken m /\
         (due m = true -> missed m' = true) /\
         (due m = false -> m' = m))
      (medications st) (medications (checkMedications now st)) /\
    medications (checkMedications now st) =
      map (fun m => if due m then with_missed m true else m)
          (medications st) /\
    notifications (checkMedications now st) =
      notifications st ++
      map (fun m => lit "Time to take " ++ name m ++ lit " (" ++
                    dosage m ++ lit ")")
          (filter due (medications st)) /\
    newMedication (checkMedications now st) = newMedication st /\
    showForm (checkMedications now st) = showForm st.
Proof.
  exists (dueGuard now).
  split; [|split; [|split; [|split; [|split; [|split]]]]].
  - intros m. apply dueGuard_dueUnconfirmed.
  - intros m h1 h2 m1 m2 H1 H2 H3 H4 E HH HM. unfold dueGuard.
    rewrite (time_test_in_minutes now h1 h2 m1 m2 m H1 H2 H3 H4 E HH HM).
    unfold digitValue.
    rewrite !andb_true_iff, !negb_true_iff, Z.leb_le.
    rewrite <- (not_true_iff_false (takenToday _ _)), takenToday_true.
    tauto.
  - rewrite checkMedications_medications.
    induction (medications st) as [|m meds IH]; simpl; constructor; auto.
    rewrite checkMed_guard.
    destruct (dueGuard now m); simpl; repeat split; auto; discriminate.
  - rewrite checkMedications_medications. apply map_ext. intros m.
    rewrite checkMed_guard. destruct (dueGuard now m); reflexivity.
  - rewrite checkMedications_notifications, concat_emitted_filter.
    reflexivity.
  - unfold checkMedications. destruct (checkAll now (medications st)).
    reflexivity.
  - unfold checkMedications. destruct (checkAll now (medications st)).
    reflexivity.
Qed.

(** C10. A run of the check keeps the length and the order of the
    collection; at every position the fields [id], [name], [dosage],
    [frequency], [time] and [lastTaken] are the ones before the run, and
    [missed] is either unchanged or goes from false to true. *)
Theorem checkDue_frame (now : Date) (st : State) :
  List.length (medications (checkMedications now st)) =
    List.length (medications st) /\
  Forall2
    (fun m m' =>
       id m' = id m /\ name m' = name m /\ dosage m' = dosage m /\
       frequency m' = frequency m /\ time m' = time m /\
       lastTaken m' = lastTaken m /\
       (missed m' = missed m \/ (missed m = false /\ missed m' = true)))
    (medications st) (medications (checkMedications now st)).
Proof.
  rewrite checkMedications_medications. split; [apply length_map|].
  induction (medications st) as [|m meds IH]; simpl; constructor; auto.
  rewrite checkMed_guard. unfold dueGuard.
  destruct (missed m) eqn:Hm.
  - rewrite andb_false_r. simpl. rewrite Hm. tauto.
  - destruct (_ && _); simpl; rewrite ?Hm; tauto.
Qed.

Lemma nth_error_checked (now : Date) (st : State) (k : nat) (m : Medication) :
  nth_error (medications st) k = Some m ->
  nth_error (medications (checkMedications now st)) k =
    Some (fst (checkMed now m)).
Proof.
  intros H. rewrite checkMedications_medications.
  rewrite nth_error_map, H. reflexivity.
Qed.

Lemma emitted_flagged (now : Date) (m : Medication) :
  missed m = true -> emitted now m = [].
Proof.
  intros H. unfold emitted. rewrite checkMed_guard. unfold dueGuard.
  rewrite H, andb_false_r. reflexivity.
Qed.

Lemma emitted_taken (now : Date) (m : Medication) :
  lastTaken m = Some (toLocaleDateString now) -> emitted now m = [].
Proof.
  intros H. unfold emitted. rewrite checkMed_guard. unfold dueGuard.
  apply takenToday_true in H. rewrite H, andb_false_r. reflexivity.
Qed.

(** C4. Two runs of the check in a row, at any two times: a medication for
    which the first run appended a banner is flagged after it, and the
    second run, whose new banners are those of the medications it visits,
    appends none for that one. *)
Theorem checkDue_no_second_notification
    (now1 now2 : Date) (st : State) (k : nat) (m : Medication) :
  nth_error (medications st) k = Some m ->
  emitted now1 m <> [] ->
  let st1 := checkMedications now1 st in
  let st2 := checkMedications now2 st1 in
  exists m1,
    nth_error (medications st1) k = Some m1 /\
    missed m1 = true /\
    emitted now2 m1 = [] /\
    nth_error (medications st2) k = Some m1 /\
    notifications st2 =
      notifications st1 ++ List.concat (map (emitted now2) (medications st1)).
Proof.
  intros Hk Hem st1 st2.
  assert (Hm1 : missed (fst (checkMed now1 m)) = true).
  { unfold emitted in Hem. rewrite checkMed_guard in *.
    destruct (dueGuard now1 m); [reflexivity | contradiction]. }
  exists (fst (checkMed now1 m)).
  assert (H1 : nth_error (medications st1) k = Some (fst (checkMed now1 m)))
    by (apply nth_error_checked; exact Hk).
  split; [exact H1|]. split; [exact Hm1|].
  split; [apply emitted_flagged; exact Hm1|]. split.
  - unfold st2. rewrite (nth_error_checked now2 st1 k _ H1).
    rewrite checkMed_guard. unfold dueGuard.
    rewrite Hm1, andb_false_r. reflexivity.
  - apply checkMedications_notifications.
Qed.

Lemma checkDue_no_second_notification_witness :
  let st := mkState [aspirin] emptyForm false [] in
  nth_error (medications st) 0 = Some aspirin /\
  emitted (jan1 8 1) aspirin <> [] /\
  let st1 := checkMedications (jan1 8 1) st in
  let st2 := checkMedications (jan1 9 0) st1 in
  exists m1,
    nth_error (medications st1) 0 = Some m1 /\
    missed m1 = true /\
    emitted (jan1 9 0) m1 = [] /\
    nth_error (medications st2) 0 = Some m1 /\
    notifications st2 =
      notifications st1 ++
      List.concat (map (emitted (jan1 9 0)) (medications st1)).
Proof.
  split; [reflexivity|]. split; [discriminate|].
  apply (checkDue_no_second_notification (jan1 8 1) (jan1 9 0)
           (mkState [aspirin] emptyForm false []) 0 aspirin).
  - reflexivity.
  - discriminate.
Defined.

Lemma nth_error_taken (now : Date) (i : jsstring) (st : State)
    (k : nat) (m : Medication) :
  nth_error (medications st) k = Some m ->
  nth_error (medications (handleTakeMedication now i st)) k =
    Some (if str_eqb (id m) i then with_taken m (toLocaleDateString now)
          else m).
Proof.
  intros H. unfold handleTakeMedication. simpl.
  rewrite nth_error_map, H. reflexivity.
Qed.

(** C5. Taking the medication with id [i] and then running the check at a
    time of the same calendar day: every medication with that id has
    [lastTaken] set to that day and [missed] false after both steps, and the
    check appends no banner for it. *)
Theorem take_then_checkDue_same_day
    (taken now : Date) (i : jsstring) (st : State)
    (k : nat) (m : Medication) :
  nth_error (medications st) k = Some m ->
  id m = i ->
  toLocaleDateString taken = toLocaleDateString now ->
  let st1 := handleTakeMedication taken i st in
  let st2 := checkMedications now st1 in
  exists m2,
    nth_error (medications st2) k = Some m2 /\
    nth_error (medications st1) k = Some m2 /\
    missed m2 = false /\
    lastTaken m2 = Some (toLocaleDateString now) /\
    emitted now m2 = [] /\
    notifications st2 =
      notifications st1 ++ List.concat (map (emitted now) (medications st1)).
Proof.
  intros Hk Hid Hday st1 st2.
  pose (m2 := with_taken m (toLocaleDateString taken)).
  assert (H1 : nth_error (medications st1) k = Some m2).
  { unfold st1. rewrite (nth_error_taken taken i st k m Hk).
    rewrite Hid, str_eqb_refl. reflexivity. }
  assert (Hlast : lastTaken m2 = Some (toLocaleDateString now))
    by (simpl; rewrite Hday; reflexivity).
  assert (Hem : emitted now m2 = []) by (apply emitted_taken; exact Hlast).
  exists m2. repeat split; auto.
  - unfold st2. rewrite (nth_error_checked now st1 k m2 H1).
    unfold emitted in Hem. rewrite checkMed_guard in *.
    destruct (dueGuard now m2); [discriminate | reflexivity].
  - apply checkMedications_notifications.
Qed.

Lemma take_then_checkDue_same_day_witness :
  let st := mkState [with_missed aspirin true] emptyForm false
                    [notificationText aspirin] in
  nth_error (medications st) 0 = Some (with_missed aspirin true) /\
  id (with_missed aspirin true) = id aspirin /\
  toLocaleDateString (jan1 8 30) = toLocaleDateString (jan1 9 0) /\
  let st1 := handleTakeMedication (jan1 8 30) (id aspirin) st in
  let st2 := checkMedications (jan1 9 0) st1 in
  exists m2,
    nth_error (medications st2) 0 = Some m2 /\
    nth_error (medications st1) 0 = Some m2 /\
    missed m2 = false /\
    lastTaken m2 = Some (toLocaleDateString (jan1 9 0)) /\
    emitted (jan1 9 0) m2 = [] /\
    notifications st2 =
      notifications st1 ++
      List.concat (map (emitted (jan1 9 0)) (medications st1)).
Proof.
  split; [reflexivity|]. split; [reflexivity|]. split; [reflexivity|].
  apply (take_then_checkDue_same_day (jan1 8 30) (jan1 9 0) (id aspirin)
           (mkState [with_missed aspirin true] emptyForm false
                    [notificationText aspirin])
           0 (with_missed aspirin true)).
  - reflexivity.
  - reflexivity.
  - reflexivity.
Defined.

(** C7. Submitting the form with an empty name or an empty dosage shows the
    alert for the missing fields and changes nothing: the state after the
    call, and so the medication collection, is the state before it. *)
Theorem addMedication_rejects_empty (nowMs : Z) (st : State) :
  form_name (newMedication st) = [] \/ form_dosage (newMedication st) = [] ->
  handleAddMedication nowMs st = (st, Some requiredFieldsAlert) /\
  medications (fst (handleAddMedication nowMs st)) = medications st.
Proof.
  intros H. unfold handleAddMedication.
  assert (G : falsy (form_name (newMedication st))
              || falsy (form_dosage (newMedication st)) = true).
  { destruct H as [-> | ->]; simpl; [reflexivity | apply orb_true_r]. }
  rewrite G. split; reflexivity.
Qed.

Lemma addMedication_rejects_empty_witness :
  let st := mkState [aspirin] (mkForm (lit "Ibuprofen") [] (lit "daily")
                                      (lit "09:30")) true [] in
  (form_name (newMedication st) = [] \/ form_dosage (newMedication st) = []) /\
  handleAddMedication 1700000000500 st = (st, Some requiredFieldsAlert) /\
  medications (fst (handleAddMedication 1700000000500 st)) = medications st.
Proof.
  split; [right; reflexivity|].
  apply (addMedication_rejects_empty 1700000000500
           (mkState [aspirin] (mkForm (lit "Ibuprofen") [] (lit "daily")
                                      (lit "09:30")) true [])).
  right. reflexivity.
Defined.

(** ** Taking a medication *)

Lemma find_unique_id (meds : list Medication) (m : Medication) :
  NoDup (map id meds) -> In m meds ->
  find (fun med => str_eqb (id med) (id m)) meds = Some m.
Proof.
  induction meds as [|x meds IH]; simpl; [tauto|].
  intros Hnd [-> | Hin].
  - rewrite str_eqb_refl. reflexivity.
  - inversion Hnd as [|? ? Hx Hnd']; subst.
    destruct (str_eqb (id x) (id m)) eqn:E.
    + apply str_eqb_eq in E. exfalso. apply Hx. rewrite E.
      apply in_map. exact Hin.
    + apply IH; assumption.
Qed.

(** C9, as the code has it. Taking an id looks up the first medication of
    the collection with that id. When it finds [m], the take keeps, in
    order, the pending banners whose text does not contain the name of [m]
    and removes all the others: a banner stays exactly when it was pending
    and the name does not occur in it, whichever medication it was emitted
    for. When the ids of the collection are distinct, [m] is the only
    medication with the id. *)
Theorem take_removes_banners_containing_name
    (now : Date) (i : jsstring) (st : State) (m : Medication) :
  find (fun med => str_eqb (id med) i) (medications st) = Some m ->
  notifications (handleTakeMedication now i st) =
    filter (fun note => negb (includes note (name m))) (notifications st) /\
  (forall note,
     In note (notifications (handleTakeMedication now i st)) <->
     In note (notifications st) /\ ~ substring (name m) note) /\
  In m (medications st) /\ id m = i /\
  (NoDup (map id (medications st)) ->
   forall m', In m' (medications st) -> id m' = i -> m' = m).
Proof.
  intros Hfind.
  assert (E : notifications (handleTakeMedication now i st) =
              filter (fun note => negb (includes note (name m)))
                     (notifications st)).
  { unfold handleTakeMedication. simpl. rewrite Hfind. reflexivity. }
  split; [exact E|]. split.
  - intros note. rewrite E, filter_In, negb_true_iff.
    rewrite <- includes_substring.
    destruct (includes note (name m)); intuition congruence.
  - destruct (find_some _ _ Hfind) as [Hin Hid]. apply str_eqb_eq in Hid.
    split; [exact Hin|]. split; [exact Hid|].
    intros Hnd m' Hin' Hid'.
    pose proof (find_unique_id (medications st) m' Hnd Hin') as F.
    rewrite Hid' in F. congruence.
Qed.

Lemma take_removes_banners_containing_name_witness :
  let zinc := mkMedication (lit "1") (lit "Zinc") (lit "5mg") (lit "daily")
                           (lit "08:00") None true in
  let st := mkState [zinc; aspirin] emptyForm false
              [notificationText zinc; notificationText aspirin;
               lit "Time to take Zincovit (1 tab)"] in
  find (fun med => str_eqb (id med) (lit "1")) (medications st) = Some zinc /\
  notifications (handleTakeMedication (jan1 8 5) (lit "1") st) =
    filter (fun note => negb (includes note (name zinc))) (notifications st) /\
  (forall note,
     In note (notifications (handleTakeMedication (jan1 8 5) (lit "1") st)) <->
     In note (notifications st) /\ ~ substring (name zinc) note) /\
  In zinc (medications st) /\ id zinc = lit "1" /\
  (NoDup (map id (medications st)) ->
   forall m', In m' (medications st) -> id m' = lit "1" -> m' = zinc).
Proof.
  split; [reflexivity|].
  apply (take_removes_banners_containing_name (jan1 8 5) (lit "1")).
  reflexivity.
Defined.

(** C9 as worded fails: after two additions at one clock reading Aspirin and
    Ibuprofen share an id; both are flagged by a check, and taking that id
    removes the banner of Aspirin, the first of the two, and leaves the
    banner of Ibuprofen, whose text contains the name of Ibuprofen. *)
Lemma take_with_shared_id_keeps_banner :
  let st := run [AddMedication (lit "Aspirin") (lit "100mg") (lit "daily")
                               (lit "08:00") 1700000000000;
                 AddMedication (lit "Ibuprofen") (lit "200mg") (lit "daily")
                               (lit "09:30") 1700000000000;
                 CheckDue (jan1 10 0)] initialState in
  let ibuprofen := mkMedication (lit "1700000000000") (lit "Ibuprofen")
                                (lit "200mg") (lit "daily") (lit "09:30")
                                None true in
  In ibuprofen (medications st) /\
  id ibuprofen = lit "1700000000000" /\
  notifications st = [lit "Time to take Aspirin (100mg)";
                      lit "Time to take Ibuprofen (200mg)"] /\
  notifications (handleTakeMedication (jan1 10 5) (lit "1700000000000") st)
  = [lit "Time to take Ibuprofen (200mg)"] /\
  notifications (handleTakeMedication (jan1 10 5) (lit "1700000000000") st)
  <> filter (fun note => negb (includes note (name ibuprofen)))
            (notifications st).
Proof.
  cbn zeta. split; [right; left; reflexivity|]. split; [reflexivity|].
  split; [reflexivity|]. split; [reflexivity|].
  vm_compute. discriminate.
Qed.

(** The quirk of the substring match: taking Zinc also removes the banner of
    Zincovit. *)
Example take_cross_dismisses :
  let zinc := mkMedication (lit "1") (lit "Zinc") (lit "5mg") (lit "daily")
                           (lit "08:00") None true in
  let zincovit := mkMedication (lit "2") (lit "Zincovit") (lit "1 tab")
                               (lit "daily") (lit "08:00") None true in
  let st := mkState [zinc; zincovit] emptyForm false
              [notificationText zinc; notificationText zincovit] in
  notifications (handleTakeMedication (jan1 8 5) (lit "1") st) = [].
Proof. reflexivity. Qed.

(** ** Adding a medication *)

Lemma lit_inj (a b : string) : lit a = lit b -> a = b.
Proof.
  unfold lit. intros H.
  rewrite <- (string_of_list_ascii_of_string a),
          <- (string_of_list_ascii_of_string b).
  f_equal. revert H.
  generalize (list_ascii_of_string a) (list_ascii_of_string b).
  intros l; induction l as [|x l IH]; intros [|y l']; simpl;
    try discriminate; [reflexivity|].
  intros H. inversion H as [[Hx Hl]]. f_equal; [|apply IH; exact Hl].
  rewrite <- (ascii_N_embedding x), <- (ascii_N_embedding y), Hx.
  reflexivity.
Qed.

Lemma to_int_proper (z : Z) :
  Z.to_int z <> Decimal.Pos Decimal.Nil /\
  Z.to_int z <> Decimal.Neg Decimal.Nil.
Proof.
  destruct z as [|p|p]; simpl; split; try discriminate;
    intros H; inversion H as [E];
    exact (DecimalPos.Unsigned.to_uint_nonnil p E).
Qed.

(** Two clock readings have the same decimal text only when they are
    equal. *)
Lemma toString_inj (a b : Z) : toString a = toString b -> a = b.
Proof.
  unfold toString. intros H. apply lit_inj in H.
  apply DecimalZ.to_int_inj.
  destruct (to_int_proper a) as [Ha1 Ha2], (to_int_proper b) as [Hb1 Hb2].
  pose proof (NilZero.isi _ Ha1 Ha2) as Ea.
  pose proof (NilZero.isi _ Hb1 Hb2) as Eb.
  rewrite H in Ea. congruence.
Qed.

(** C6, as the code has it. With a non-empty name and a non-empty dosage
    the call shows no alert and appends one medication at the end of the
    collection, the existing entries unchanged before it; the new medication
    carries the fields of the form, [lastTaken] null and [missed] false; its
    id is the decimal text of the millisecond clock reading of the call, so
    it differs from the id of every existing medication whose id is the text
    of a different reading. *)
Theorem addMedication_appends (nowMs : Z) (st : State) :
  form_name (newMedication st) <> [] ->
  form_dosage (newMedication st) <> [] ->
  exists newMed,
    handleAddMedication nowMs st =
      (mkState (medications st ++ [newMed]) emptyForm false
               (notifications st), None) /\
    lastTaken newMed = None /\
    missed newMed = false /\
    name newMed = form_name (newMedication st) /\
    dosage newMed = form_dosage (newMedication st) /\
    frequency newMed = form_frequency (newMedication st) /\
    time newMed = form_time (newMedication st) /\
    id newMed = toString nowMs /\
    (forall m t, In m (medications st) -> id m = toString t -> t <> nowMs ->
                 id m <> id newMed).
Proof.
  intros Hn Hd. unfold handleAddMedication.
  destruct (form_name (newMedication st)) as [|c n] eqn:En; [congruence|].
  destruct (form_dosage (newMedication st)) as [|c' d] eqn:Ed; [congruence|].
  simpl. eexists. split; [reflexivity|]. simpl.
  repeat (split; [reflexivity|]).
  intros m t _ Hid Hne E. apply Hne, toString_inj. congruence.
Qed.

Lemma addMedication_appends_witness :
  let st := mkState [aspirin] (mkForm (lit "Ibuprofen") (lit "200mg")
                                      (lit "daily") (lit "09:30")) true [] in
  form_name (newMedication st) <> [] /\
  form_dosage (newMedication st) <> [] /\
  exists newMed,
    handleAddMedication 1700000000500 st =
      (mkState (medications st ++ [newMed]) emptyForm false
               (notifications st), None) /\
    lastTaken newMed = None /\
    missed newMed = false /\
    name newMed = form_name (newMedication st) /\
    dosage newMed = form_dosage (newMedication st) /\
    frequency newMed = form_frequency (newMedication st) /\
    time newMed = form_time (newMedication st) /\
    id newMed = toString 1700000000500 /\
    (forall m t, In m (medications st) -> id m = toString t ->
                 t <> 1700000000500 -> id m <> id newMed).
Proof.
  split; [discriminate|]. split; [discriminate|].
  apply (addMedication_appends 1700000000500
           (mkState [aspirin] (mkForm (lit "Ibuprofen") (lit "200mg")
                                      (lit "daily") (lit "09:30")) true []));
    discriminate.
Defined.

(** C6 as worded fails: a call made at a clock reading whose text is
    already an id appends a medication with that same id. *)
Lemma addMedication_id_not_fresh :
  let st := mkState [aspirin] (mkForm (lit "Ibuprofen") (lit "200mg")
                                      (lit "daily") (lit "09:30")) true [] in
  form_name (newMedication st) <> [] /\
  form_dosage (newMedication st) <> [] /\
  ~ (forall newMed,
       medications (fst (handleAddMedication 1700000000000 st)) =
         medications st ++ [newMed] ->
       forall m, In m (medications st) -> id newMed <> id m).
Proof.
  split; [discriminate|]. split; [discriminate|].
  intros H.
  apply (H (mkMedication (lit "1700000000000") (lit "Ibuprofen") (lit "200mg")
                         (lit "daily") (lit "09:30") None false)
           eq_refl aspirin (or_introl eq_refl)).
  reflexivity.
Qed.

(** ** Runs of the store *)

Lemma run_snoc (ops : list Op) (op : Op) (st : State) :
  run (ops ++ [op]) st = step (run ops st) op.
Proof. unfold run. rewrite fold_left_app. reflexivity. Qed.

Lemma addMedication_medications (n d f t : jsstring) (nowMs : Z) (st : State) :
  medications (fst (addMedication n d f t nowMs st)) = medications st \/
  exists newMed,
    medications (fst (addMedication n d f t nowMs st)) =
      medications st ++ [newMed] /\ missed newMed = false.
Proof.
  unfold addMedication, handleAddMedication. simpl.
  destruct (falsy n || falsy d); simpl.
  - left. reflexivity.
  - right. eexists. split; reflexivity.
Qed.

Lemma flaggedByCheck_snoc (ops : list Op) (op : Op) (m : Medication) :
  flaggedByCheck ops m -> flaggedByCheck (ops ++ [op]) m.
Proof.
  intros [now [Hin H]]. exists now. split; [|exact H].
  apply in_or_app. left. exact Hin.
Qed.

Lemma step_keeps_flag_origin (ops : list Op) (op : Op) (st : State) :
  (forall m, In m (medications st) -> missed m = true ->
             flaggedByCheck ops m) ->
  forall m, In m (medications (step st op)) -> missed m = true ->
            flaggedByCheck (ops ++ [op]) m.
Proof.
  intros Inv m Hin Hm. destruct op as [n d f t nowMs | i | i now | now]; simpl in Hin.
  - destruct (addMedication_medications n d f t nowMs st) as [E | [x [E Hx]]];
      rewrite E in Hin.
    + apply flaggedByCheck_snoc, Inv; assumption.
    + apply in_app_or in Hin. destruct Hin as [Hin | [<- | []]].
      * apply flaggedByCheck_snoc, Inv; assumption.
      * congruence.
  - apply filter_In in Hin. apply flaggedByCheck_snoc, Inv; tauto.
  - apply in_map_iff in Hin. destruct Hin as [m0 [E Hin]].
    destruct (str_eqb (id m0) i); subst m.
    + discriminate.
    + apply flaggedByCheck_snoc, Inv; assumption.
  - rewrite checkMedications_medications in Hin.
    apply in_map_iff in Hin. destruct Hin as [m0 [E Hin]].
    rewrite checkMed_guard in E. destruct (dueGuard now m0) eqn:G.
    + apply dueGuard_dueUnconfirmed in G. destruct G as [Ht [Hl _]].
      subst m. exists now. split; [|split].
      * apply in_or_app. right. left. reflexivity.
      * exact Hl.
      * exact Ht.
    + simpl in E. subst m0. apply flaggedByCheck_snoc, Inv; assumption.
Qed.

Lemma step_keeps_flagged (st : State) (op : Op) (m : Medication) :
  In m (medications st) -> missed m = true ->
  (forall now, op <> TakeMedication (id m) now) ->
  op <> DeleteMedication (id m) ->
  In m (medications (step st op)).
Proof.
  intros Hin Hm Htake Hdel.
  destruct op as [n d f t nowMs | i | i now | now]; simpl.
  - destruct (addMedication_medications n d f t nowMs st) as [E | [x [E _]]];
      rewrite E; [exact Hin | apply in_or_app; left; exact Hin].
  - apply filter_In. split; [exact Hin|].
    apply negb_true_iff, not_true_iff_false. rewrite str_eqb_eq.
    intros E. apply Hdel. rewrite E. reflexivity.
  - apply in_map_iff. exists m. split; [|exact Hin].
    destruct (str_eqb (id m) i) eqn:E; [|reflexivity].
    apply str_eqb_eq in E. exfalso. apply (Htake now). rewrite E. reflexivity.
  - rewrite checkMedications_medications. apply in_map_iff.
    exists m. split; [|exact Hin].
    rewrite checkMed_guard. unfold dueGuard. rewrite Hm, andb_false_r.
    reflexivity.
Qed.

Lemma run_keeps_flagged (more : list Op) (st : State) (m : Medication) :
  leavesAlone (id m) more ->
  In m (medications st) -> missed m = true ->
  In m (medications (run more st)).
Proof.
  revert st. induction more as [|op more IH]; intros st Hl Hin Hm.
  - exact Hin.
  - change (run (op :: more) st) with (run more (step st op)).
    apply IH.
    + intros op' Hop'. apply Hl. right. exact Hop'.
    + destruct (Hl op (or_introl eq_refl)) as [Htake Hdel].
      apply step_keeps_flagged; assumption.
    + exact Hm.
Qed.

(** C3, as the code has it. In every state reached from the empty store by
    additions, deletions, takes and checks, a medication is flagged missed
    only if some check of the run was made at a time [now] at which the
    medication's [lastTaken] was not the date of [now] and the time of day
    of [now] was at or after its [time]. The flag then stays: after any
    further operations [more], at any clock readings, none of which takes or
    deletes that id, the medication is still in the collection, flagged and
    otherwise as it was. *)
Theorem missed_only_after_due_check
    (ops more : list Op) (m : Medication) :
  In m (medications (run ops initialState)) ->
  missed m = true ->
  leavesAlone (id m) more ->
  (exists now,
     In (CheckDue now) ops /\
     lastTaken m <> Some (toLocaleDateString now) /\
     timeReached now m) /\
  In m (medications (run (ops ++ more) initialState)).
Proof.
  intros Hin Hm Hl. split.
  - clear more Hl. revert m Hin Hm.
    induction ops as [|op ops IH] using rev_ind; intros m.
    + simpl. tauto.
    + rewrite run_snoc. intros Hin Hm.
      exact (step_keeps_flag_origin ops op _ IH m Hin Hm).
  - unfold run. rewrite fold_left_app.
    apply run_keeps_flagged; assumption.
Qed.

Lemma missed_only_after_due_check_witness :
  let ops := [AddMedication (lit "Aspirin") (lit "100mg") (lit "daily")
                            (lit "08:00") 1700000000000;
              CheckDue (jan1 21 0)] in
  let more := [CheckDue (jan2 7 0);
               AddMedication (lit "Ibuprofen") (lit "200mg") (lit "weekly")
                             (lit "21:15") 1700000000500;
               TakeMedication (lit "1700000000500") (jan2 7 30)] in
  let m := with_missed aspirin true in
  In m (medications (run ops initialState)) /\
  missed m = true /\
  leavesAlone (id m) more /\
  (exists now,
     In (CheckDue now) ops /\
     lastTaken m <> Some (toLocaleDateString now) /\
     timeReached now m) /\
  In m (medications (run (ops ++ more) initialState)).
Proof.
  cbn zeta.
  assert (Hl : leavesAlone (id (with_missed aspirin true))
                 [CheckDue (jan2 7 0);
                  AddMedication (lit "Ibuprofen") (lit "200mg") (lit "weekly")
                                (lit "21:15") 1700000000500;
                  TakeMedication (lit "1700000000500") (jan2 7 30)]).
  { intros op [<- | [<- | [<- | []]]]; split; try discriminate;
      intros now; discriminate. }
  split; [left; reflexivity|]. split; [reflexivity|]. split; [exact Hl|].
  apply (missed_only_after_due_check
           [AddMedication (lit "Aspirin") (lit "100mg") (lit "daily")
                          (lit "08:00") 1700000000000;
            CheckDue (jan1 21 0)]
           [CheckDue (jan2 7 0);
            AddMedication (lit "Ibuprofen") (lit "200mg") (lit "weekly")
                          (lit "21:15") 1700000000500;
            TakeMedication (lit "1700000000500") (jan2 7 30)]
           (with_missed aspirin true)).
  - left; reflexivity.
  - reflexivity.
  - exact Hl.
Defined.

(** C3 as worded fails: a medication due at 08:00 and flagged by the check
    of 21:00 is still flagged at 07:00 the next morning, before its time. *)
Lemma missed_flag_outlives_the_day :
  ~ missedOnlyIfDue (jan2 7 0)
      (run [AddMedication (lit "Aspirin") (lit "100mg") (lit "daily")
                          (lit "08:00") 1700000000000;
            CheckDue (jan1 21 0)]
           initialState).
Proof.
  intros H.
  destruct (H (with_missed aspirin true) (or_introl eq_refl) eq_refl)
    as [_ [hours [minutes [more [E G]]]]].
  vm_compute in E. inversion E; subst hours minutes more.
  vm_compute in G. discriminate.
Qed.

(** The scenario of the specification: Aspirin 100mg at 08:00. The check of
    07:59 changes nothing; the check of 08:01 flags it and appends one
    banner; taking it sets the day, clears the flag and removes the banner;
    the check of 09:00 appends nothing. *)
Example aspirin_scenario :
  let add := AddMedication (lit "Aspirin") (lit "100mg") (lit "daily")
                           (lit "08:00") 1700000000000 in
  let st0 := run [add] initialState in
  let st1 := run [CheckDue (jan1 7 59)] st0 in
  let st2 := run [CheckDue (jan1 8 1)] st1 in
  let st3 := run [TakeMedication (lit "1700000000000") (jan1 8 5)] st2 in
  let st4 := run [CheckDue (jan1 9 0)] st3 in
  medications st0 = [aspirin] /\
  st1 = st0 /\
  medications st2 = [with_missed aspirin true] /\
  notifications st2 = [lit "Time to take Aspirin (100mg)"] /\
  medications st3 = [with_taken aspirin (lit "1/1/2025")] /\
  notifications st3 = [] /\
  st4 = st3.
Proof. repeat split; reflexivity. Qed.

(** ** JSON: strings survive writing and reading *)

Module JSONFacts.
Import JSON.

Local Open Scope N_scope.

Lemma unhexDigit_hexDigit (n : N) :
  n < 16 -> unhexDigit (hexDigit n) = Some n.
Proof.
  intros H. unfold hexDigit, unhexDigit.
  destruct (N.ltb_spec n 10) as [L | L].
  - replace (48 <=? 48 + n) with true by (symmetry; apply N.leb_le; lia).
    replace (48 + n <=? 57) with true by (symmetry; apply N.leb_le; lia).
    cbn [andb]. f_equal. lia.
  - replace (87 + n <=? 57) with false by (symmetry; apply N.leb_gt; lia).
    rewrite andb_false_r.
    replace (97 <=? 87 + n) with true by (symmetry; apply N.leb_le; lia).
    replace (87 + n <=? 102) with true by (symmetry; apply N.leb_le; lia).
    cbn [andb]. f_equal. lia.
Qed.

Lemma unhex4_digits (c : N) :
  c < 65536 ->
  unhex4 (hexDigit (c / 4096 mod 16)) (hexDigit (c / 256 mod 16))
         (hexDigit (c / 16 mod 16)) (hexDigit (c mod 16)) = Some c.
Proof.
  intros H. unfold unhex4.
  rewrite !unhexDigit_hexDigit by (apply N.mod_lt; discriminate).
  f_equal.
  pose proof (N.div_mod c 16 ltac:(discriminate)) as E1.
  pose proof (N.div_mod (c / 16) 16 ltac:(discriminate)) as E2.
  pose proof (N.div_mod (c / 16 / 16) 16 ltac:(discriminate)) as E3.
  assert (E4 : c / 16 / 16 / 16 < 16).
  { repeat (apply N.Div0.div_lt_upper_bound). lia. }
  replace (c / 4096) with (c / 16 / 16 / 16)
    by (rewrite !N.Div0.div_div; reflexivity).
  replace (c / 256) with (c / 16 / 16)
    by (rewrite !N.Div0.div_div; reflexivity).
  rewrite (N.mod_small _ _ E4). lia.
Qed.

Lemma parseChars_cons_plain (c : N) (r : jsstring) :
  c <> 34 -> c <> 92 -> 32 <= c ->
  parseChars (c :: r) =
  match parseChars r with
  | Some (str, r') => Some (c :: str, r')
  | None => None
  end.
Proof.
  intros H1 H2 H3. cbn [parseChars].
  apply N.eqb_neq in H1, H2. rewrite H1, H2.
  assert (H4 : (c <? 32) = false) by (apply N.ltb_ge; exact H3).
  rewrite H4. reflexivity.
Qed.

Lemma parseChars_unicodeEscape (c : N) (r : jsstring) :
  c < 65536 ->
  parseChars (unicodeEscape c ++ r) =
  match parseChars r with
  | Some (str, r') => Some (c :: str, r')
  | None => None
  end.
Proof.
  intros H. unfold unicodeEscape. cbn [app parseChars].
  change (92 =? 34) with false. change (92 =? 92) with true.
  change (117 =? 117) with true. cbv iota.
  rewrite (unhex4_digits c H). reflexivity.
Qed.

Lemma parseChars_quoteUnit (c : N) (r : jsstring) :
  parseChars (quoteUnit c ++ r) =
  match parseChars r with
  | Some (str, r') => Some (c :: str, r')
  | None => None
  end.
Proof.
  unfold quoteUnit.
  repeat match goal with
  | |- context [if ?c =? ?k then _ else _] =>
      destruct (N.eqb_spec c k) as [-> | ?]; [reflexivity|]
  end.
  destruct (_ || _) eqn:E.
  - apply parseChars_unicodeEscape.
    unfold isLeadingSurrogate, isTrailingSurrogate in E.
    rewrite !orb_true_iff, !andb_true_iff, N.ltb_lt, !N.leb_le in E. lia.
  - rewrite !orb_false_iff, N.ltb_ge in E.
    apply parseChars_cons_plain; tauto.
Qed.

Lemma parseChars_surrogate_pair (c d : N) (r : jsstring) :
  isLeadingSurrogate c = true -> isTrailingSurrogate d = true ->
  parseChars (c :: d :: r) =
  match parseChars r with
  | Some (str, r') => Some (c :: d :: str, r')
  | None => None
  end.
Proof.
  unfold isLeadingSurrogate, isTrailingSurrogate.
  rewrite !andb_true_iff, !N.leb_le. intros Hc Hd.
  rewrite !parseChars_cons_plain by lia.
  destruct (parseChars r) as [[str r']|]; reflexivity.
Qed.

(** Reading what [quoteUnits] wrote, up to the closing quote, gives the
    string back and stops right after the quote. *)
Lemma parseChars_quoteUnits (s rest : jsstring) :
  parseChars (quoteUnits s ++ 34 :: rest) = Some (s, rest).
Proof.
  enough (H : parseChars (quoteUnits s ++ 34 :: rest) = Some (s, rest) /\
              forall c, parseChars (quoteUnits (c :: s) ++ 34 :: rest)
                        = Some (c :: s, rest)) by apply H.
  induction s as [|d s [IH1 IH2]].
  - split; [reflexivity|]. intros c. cbn [quoteUnits].
    destruct (isLeadingSurrogate c) eqn:Lc.
    + rewrite parseChars_unicodeEscape; [reflexivity|].
      unfold isLeadingSurrogate in Lc.
      rewrite andb_true_iff, !N.leb_le in Lc. lia.
    + rewrite app_nil_r, parseChars_quoteUnit. reflexivity.
  - split; [apply IH2|]. intros c.
    change (quoteUnits (c :: d :: s)) with
      (if isLeadingSurrogate c then
         if isTrailingSurrogate d then c :: d :: quoteUnits s
         else unicodeEscape c ++ quoteUnits (d :: s)
       else quoteUnit c ++ quoteUnits (d :: s)).
    destruct (isLeadingSurrogate c) eqn:Lc.
    + destruct (isTrailingSurrogate d) eqn:Td.
      * cbn [app]. rewrite parseChars_surrogate_pair by assumption.
        rewrite IH1. reflexivity.
      * rewrite <- app_assoc, parseChars_unicodeEscape, IH2; [reflexivity|].
        unfold isLeadingSurrogate in Lc.
        rewrite andb_true_iff, !N.leb_le in Lc. lia.
    + rewrite <- app_assoc, parseChars_quoteUnit, IH2. reflexivity.
Qed.

End JSONFacts.

(** ** JSON: the reader's budget *)

Module JSONFuel.
Import JSON.

Lemma dropWhile_length {A} (p : A -> bool) (l : list A) :
  (List.length (dropWhile p l) <= List.length l)%nat.
Proof.
  induction l as [|x l IH]; simpl; [lia|].
  destruct (p x); simpl; lia.
Qed.

Lemma skipWs_length (s : jsstring) :
  (List.length (skipWs s) <= List.length s)%nat.
Proof. apply dropWhile_length. Qed.

Lemma parseChars_shrinks (s str r : jsstring) :
  parseChars s = Some (str, r) -> (List.length r < List.length s)%nat.
Proof.
  remember (List.length s) as n eqn:Hn.
  assert (Hle : (List.length s <= n)%nat) by lia. clear Hn.
  revert s str r Hle.
  induction n as [|n IH]; intros s str r Hle H.
  - destruct s; [discriminate | simpl in Hle; lia].
  - destruct s as [|c s]; [discriminate|]. cbn [parseChars] in H.
    simpl in Hle.
    destruct (c =? 34)%N.
    { inversion H; subst. simpl. lia. }
    destruct (c =? 92)%N.
    + destruct s as [|e r1]; [discriminate|].
      destruct (e =? 117)%N.
      * destruct r1 as [|h1 [|h2 [|h3 [|h4 r2]]]]; try discriminate.
        destruct (unhex4 h1 h2 h3 h4); [|discriminate].
        destruct (parseChars r2) as [[str' r3]|] eqn:E; [|discriminate].
        inversion H; subst. apply IH in E; simpl in *; lia.
      * destruct (simpleEscape e); [|discriminate].
        destruct (parseChars r1) as [[str' r2]|] eqn:E; [|discriminate].
        inversion H; subst. apply IH in E; simpl in *; lia.
    + destruct (c <? 32)%N; [discriminate|].
      destruct (parseChars s) as [[str' r']|] eqn:E; [|discriminate].
      inversion H; subst. apply IH in E; simpl in *; lia.
Qed.

Lemma parseNumber_shrinks (s l r : jsstring) :
  parseNumber s = Some (l, r) -> (List.length r < List.length s)%nat.
Proof.
  unfold parseNumber.
  set (sg := match s with
             | c :: r0 => if (c =? 45)%N then ([c], r0) else ([], s)
             | [] => ([], s)
             end).
  assert (Hsg : (List.length (snd sg) <= List.length s)%nat).
  { subst sg. destruct s as [|c r0]; simpl; [lia|].
    destruct (c =? 45)%N; simpl; lia. }
  destruct sg as [sign s1]. simpl in Hsg.
  destruct s1 as [|c r1]; [discriminate|].
  destruct (negb (isDigit c)); [discriminate|].
  set (it := if (c =? 48)%N then ([c], r1)
             else (c :: takeWhile isDigit r1, dropWhile isDigit r1)).
  assert (Hit : (List.length (snd it) <= List.length r1)%nat).
  { subst it. destruct (c =? 48)%N; simpl; [lia | apply dropWhile_length]. }
  destruct it as [int s2]. simpl in Hit, Hsg.
  set (frac := match s2 with
               | p :: r2 =>
                   if (p =? 46)%N then
                     match takeWhile isDigit r2 with
                     | [] => None
                     | ds => Some (p :: ds, dropWhile isDigit r2)
                     end
                   else Some ([], s2)
               | [] => Some ([], s2)
               end).
  assert (Hfr : forall fr s3, frac = Some (fr, s3) ->
                              (List.length s3 <= List.length s2)%nat).
  { subst frac. intros fr s3. destruct s2 as [|p r2].
    - intros E; inversion E; subst; simpl; lia.
    - destruct (p =? 46)%N.
      + pose proof (dropWhile_length isDigit r2).
        destruct (takeWhile isDigit r2); [discriminate|].
        intros E; inversion E; subst; simpl; lia.
      + intros E; inversion E; subst; simpl; lia. }
  destruct frac as [[fr s3]|]; [|discriminate].
  specialize (Hfr fr s3 eq_refl).
  destruct s3 as [|e r3].
  - intros E; inversion E; subst. simpl in *. lia.
  - destruct ((e =? 101)%N || (e =? 69)%N).
    + set (ex := match r3 with
                 | g :: r' => if (g =? 43)%N || (g =? 45)%N
                              then ([g], r') else ([], r3)
                 | [] => ([], r3)
                 end).
      assert (Hex : (List.length (snd ex) <= List.length r3)%nat).
      { subst ex. destruct r3 as [|g r']; simpl; [lia|].
        destruct ((g =? 43)%N || (g =? 45)%N); simpl; lia. }
      destruct ex as [esign r4]. simpl in Hex.
      pose proof (dropWhile_length isDigit r4).
      destruct (takeWhile isDigit r4); [discriminate|].
      intros E; inversion E; subst. simpl in *. lia.
    + intros E; inversion E; subst. simpl in *. lia.
Qed.

Lemma stripPrefix_length (word s r : jsstring) :
  stripPrefix word s = Some r ->
  List.length s = (List.length word + List.length r)%nat.
Proof.
  revert s; induction word as [|c word IH]; intros s; simpl.
  - intros E; inversion E; reflexivity.
  - destruct s as [|d s]; [discriminate|].
    destruct (c =? d)%N; [|discriminate].
    intros E. apply IH in E. simpl. lia.
Qed.


Lemma bind_not_out_of_fuel {A B} (r : result A) (k : A -> result B) :
  bind r k <> OutOfFuel -> r <> OutOfFuel.
Proof. destruct r; simpl; congruence. Qed.

Lemma parseWord_shrinks (word : jsstring) (v a : value) (s r : jsstring) :
  word <> [] -> parseWord word v s = Ok (a, r) ->
  (List.length r < List.length s)%nat.
Proof.
  intros Hw. unfold parseWord.
  destruct (stripPrefix word s) as [r'|] eqn:E; [|discriminate].
  intros H; inversion H; subst. apply stripPrefix_length in E.
  destruct word; [congruence | simpl in E; lia].
Qed.

Lemma parseWord_in_budget (word : jsstring) (v : value) (s : jsstring) :
  parseWord word v s <> OutOfFuel.
Proof. unfold parseWord. destruct (stripPrefix word s); discriminate. Qed.

Section StepFacts.

Variables value_ value' : jsstring -> result (value * jsstring).
Variables elements_ elements' : jsstring -> result (list value * jsstring).
Variables members_ members'
  : jsstring -> result (list (jsstring * value) * jsstring).

Lemma valueStep_shrinks :
  shrinks elements_ -> shrinks members_ ->
  shrinks (valueStep elements_ members_).
Proof.
  intros He Hm s a r H. unfold valueStep in H.
  destruct s as [|c r0]; [discriminate|].
  destruct (c =? 34)%N.
  { unfold bind, ofOption in H.
    destruct (parseChars r0) as [[str r']|] eqn:E; [|discriminate].
    inversion H; subst. apply parseChars_shrinks in E. simpl. lia. }
  destruct (c =? 91)%N.
  { pose proof (skipWs_length r0) as L.
    destruct (skipWs r0) as [|d r']; [discriminate|].
    destruct (d =? 93)%N.
    - inversion H; subst. simpl in *. lia.
    - unfold bind in H.
      destruct (elements_ (d :: r')) as [[items r2]| |] eqn:E;
        try discriminate.
      inversion H; subst. apply He in E. simpl in *. lia. }
  destruct (c =? 123)%N.
  { pose proof (skipWs_length r0) as L.
    destruct (skipWs r0) as [|d r']; [discriminate|].
    destruct (d =? 125)%N.
    - inversion H; subst. simpl in *. lia.
    - unfold bind in H.
      destruct (members_ (d :: r')) as [[ms r2]| |] eqn:E; try discriminate.
      inversion H; subst. apply Hm in E. simpl in *. lia. }
  destruct (c =? 110)%N.
  { apply parseWord_shrinks in H; [exact H | discriminate]. }
  destruct (c =? 116)%N.
  { apply parseWord_shrinks in H; [exact H | discriminate]. }
  destruct (c =? 102)%N.
  { apply parseWord_shrinks in H; [exact H | discriminate]. }
  unfold bind, ofOption in H.
  destruct (parseNumber (c :: r0)) as [[l r']|] eqn:E; [|discriminate].
  inversion H; subst. apply parseNumber_shrinks in E. exact E.
Qed.

Lemma elementsStep_shrinks :
  shrinks value_ -> shrinks elements_ ->
  shrinks (elementsStep value_ elements_).
Proof.
  intros Hv He s a r H. unfold elementsStep, bind in H.
  destruct (value_ s) as [[v r0]| |] eqn:E; try discriminate.
  apply Hv in E. pose proof (skipWs_length r0) as L.
  destruct (skipWs r0) as [|d r1]; [discriminate|].
  destruct (d =? 44)%N.
  - pose proof (skipWs_length r1) as L1.
    destruct (elements_ (skipWs r1)) as [[vs r2]| |] eqn:E2;
      try discriminate.
    inversion H; subst. apply He in E2. simpl in *. lia.
  - destruct (d =? 93)%N; [|discriminate].
    inversion H; subst. simpl in *. lia.
Qed.

Lemma membersStep_shrinks :
  shrinks value_ -> shrinks members_ ->
  shrinks (membersStep value_ members_).
Proof.
  intros Hv Hm s a r H. unfold membersStep, bind, ofOption in H.
  destruct s as [|c r0]; [discriminate|].
  destruct (negb (c =? 34)%N); [discriminate|].
  destruct (parseChars r0) as [[k r1]|] eqn:Ek; [|discriminate].
  apply parseChars_shrinks in Ek. pose proof (skipWs_length r1) as L1.
  destruct (skipWs r1) as [|d r2]; [discriminate|].
  destruct (negb (d =? 58)%N); [discriminate|].
  pose proof (skipWs_length r2) as L2.
  destruct (value_ (skipWs r2)) as [[v r3]| |] eqn:Ev; try discriminate.
  apply Hv in Ev. pose proof (skipWs_length r3) as L3.
  destruct (skipWs r3) as [|e r4]; [discriminate|].
  destruct (e =? 44)%N.
  - pose proof (skipWs_length r4) as L4.
    destruct (members_ (skipWs r4)) as [[ms r5]| |] eqn:Em; try discriminate.
    inversion H; subst. apply Hm in Em. simpl in *. lia.
  - destruct (e =? 125)%N; [|discriminate].
    inversion H; subst. simpl in *. lia.
Qed.

Lemma valueStep_grows :
  grows elements_ elements' -> grows members_ members' ->
  grows (valueStep elements_ members_) (valueStep elements' members').
Proof.
  intros He Hm s H. unfold valueStep in *.
  destruct s as [|c r0]; [reflexivity|].
  destruct (c =? 34)%N; [reflexivity|].
  destruct (c =? 91)%N.
  { destruct (skipWs r0) as [|d r']; [reflexivity|].
    destruct (d =? 93)%N; [reflexivity|].
    apply bind_not_out_of_fuel in H. rewrite (He _ H). reflexivity. }
  destruct (c =? 123)%N.
  { destruct (skipWs r0) as [|d r']; [reflexivity|].
    destruct (d =? 125)%N; [reflexivity|].
    apply bind_not_out_of_fuel in H. rewrite (Hm _ H). reflexivity. }
  reflexivity.
Qed.

Lemma elementsStep_grows :
  grows value_ value' -> grows elements_ elements' ->
  grows (elementsStep value_ elements_) (elementsStep value' elements').
Proof.
  intros Hv He s H. unfold elementsStep in *.
  rewrite (Hv _ (bind_not_out_of_fuel _ _ H)).
  destruct (value_ s) as [[v r0]| |]; simpl in *; try reflexivity.
  destruct (skipWs r0) as [|d r1]; [reflexivity|].
  destruct (d =? 44)%N; [|reflexivity].
  rewrite (He _ (bind_not_out_of_fuel _ _ H)). reflexivity.
Qed.

Lemma membersStep_grows :
  grows value_ value' -> grows members_ members' ->
  grows (membersStep value_ members_) (membersStep value' members').
Proof.
  intros Hv Hm s H. unfold membersStep in *.
  destruct s as [|c r0]; [reflexivity|].
  destruct (negb (c =? 34)%N); [reflexivity|].
  destruct (ofOption (parseChars r0)) as [[k r1]| |]; simpl in *;
    try reflexivity.
  destruct (skipWs r1) as [|d r2]; [reflexivity|].
  destruct (negb (d =? 58)%N); [reflexivity|].
  rewrite (Hv _ (bind_not_out_of_fuel _ _ H)).
  destruct (value_ (skipWs r2)) as [[v r3]| |]; simpl in *; try reflexivity.
  destruct (skipWs r3) as [|e r4]; [reflexivity|].
  destruct (e =? 44)%N; [|reflexivity].
  rewrite (Hm _ (bind_not_out_of_fuel _ _ H)). reflexivity.
Qed.

Lemma valueStep_in_budget (s : jsstring) :
  (forall s', (List.length s' < List.length s)%nat ->
              elements_ s' <> OutOfFuel) ->
  (forall s', (List.length s' < List.length s)%nat ->
              members_ s' <> OutOfFuel) ->
  valueStep elements_ members_ s <> OutOfFuel.
Proof.
  intros He Hm. unfold valueStep.
  destruct s as [|c r0]; [discriminate|].
  destruct (c =? 34)%N.
  { destruct (parseChars r0) as [[str r']|]; simpl; discriminate. }
  destruct (c =? 91)%N.
  { pose proof (skipWs_length r0) as L.
    destruct (skipWs r0) as [|d r']; [discriminate|].
    destruct (d =? 93)%N; [discriminate|].
    specialize (He (d :: r') ltac:(simpl in *; lia)).
    destruct (elements_ (d :: r')) as [[items r2]| |]; simpl; congruence. }
  destruct (c =? 123)%N.
  { pose proof (skipWs_length r0) as L.
    destruct (skipWs r0) as [|d r']; [discriminate|].
    destruct (d =? 125)%N; [discriminate|].
    specialize (Hm (d :: r') ltac:(simpl in *; lia)).
    destruct (members_ (d :: r')) as [[ms r2]| |]; simpl; congruence. }
  destruct (c =? 110)%N; [apply parseWord_in_budget|].
  destruct (c =? 116)%N; [apply parseWord_in_budget|].
  destruct (c =? 102)%N; [apply parseWord_in_budget|].
  destruct (parseNumber (c :: r0)) as [[l r']|]; simpl; discriminate.
Qed.

Lemma elementsStep_in_budget (s : jsstring) :
  value_ s <> OutOfFuel -> shrinks value_ ->
  (forall s', (List.length s' < List.length s)%nat ->
              elements_ s' <> OutOfFuel) ->
  elementsStep value_ elements_ s <> OutOfFuel.
Proof.
  intros Hv Sv He. unfold elementsStep.
  destruct (value_ s) as [[v r0]| |] eqn:E; simpl; try congruence.
  apply Sv in E. pose proof (skipWs_length r0) as L.
  destruct (skipWs r0) as [|d r1]; [discriminate|].
  destruct (d =? 44)%N.
  - pose proof (skipWs_length r1) as L1.
    specialize (He (skipWs r1) ltac:(simpl in *; lia)).
    destruct (elements_ (skipWs r1)) as [[vs r2]| |]; simpl; congruence.
  - destruct (d =? 93)%N; discriminate.
Qed.

Lemma membersStep_in_budget (s : jsstring) :
  (forall s', (List.length s' < List.length s)%nat ->
              value_ s' <> OutOfFuel) ->
  shrinks value_ ->
  (forall s', (List.length s' < List.length s)%nat ->
              members_ s' <> OutOfFuel) ->
  membersStep value_ members_ s <> OutOfFuel.
Proof.
  intros Hv Sv Hm. unfold membersStep.
  destruct s as [|c r0]; [discriminate|].
  destruct (negb (c =? 34)%N); [discriminate|].
  destruct (parseChars r0) as [[k r1]|] eqn:Ek; simpl; [|discriminate].
  apply parseChars_shrinks in Ek. pose proof (skipWs_length r1) as L1.
  destruct (skipWs r1) as [|d r2]; [discriminate|].
  destruct (negb (d =? 58)%N); [discriminate|].
  pose proof (skipWs_length r2) as L2.
  specialize (Hv (skipWs r2) ltac:(simpl in *; lia)).
  destruct (value_ (skipWs r2)) as [[v r3]| |] eqn:Ev; simpl; try congruence.
  apply Sv in Ev. pose proof (skipWs_length r3) as L3.
  destruct (skipWs r3) as [|e r4]; [discriminate|].
  destruct (e =? 44)%N.
  - pose proof (skipWs_length r4) as L4.
    specialize (Hm (skipWs r4) ltac:(simpl in *; lia)).
    destruct (members_ (skipWs r4)) as [[ms r5]| |]; simpl; congruence.
  - destruct (e =? 125)%N; discriminate.
Qed.

End StepFacts.

(** At every budget the three functions consume input. *)
Lemma parse_shrinks (fuel : nat) :
  shrinks (parseValue fuel) /\ shrinks (parseElements fuel) /\
  shrinks (parseMembers fuel).
Proof.
  induction fuel as [|fuel [IHv [IHe IHm]]].
  - repeat split; intros s a r H; discriminate.
  - repeat split; cbn [parseValue parseElements parseMembers].
    + apply valueStep_shrinks; assumption.
    + apply elementsStep_shrinks; assumption.
    + apply membersStep_shrinks; assumption.
Qed.

(** A larger budget keeps every answer. *)
Lemma parse_grows (fuel : nat) :
  grows (parseValue fuel) (parseValue (S fuel)) /\
  grows (parseElements fuel) (parseElements (S fuel)) /\
  grows (parseMembers fuel) (parseMembers (S fuel)).
Proof.
  induction fuel as [|fuel [IHv [IHe IHm]]].
  - repeat split; intros s H; exfalso; apply H; reflexivity.
  - repeat split.
    + exact (valueStep_grows _ _ _ _ IHe IHm).
    + exact (elementsStep_grows _ _ _ _ IHv IHe).
    + exact (membersStep_grows _ _ _ _ IHv IHm).
Qed.

Lemma parseValue_more_fuel (fuel fuel' : nat) (s : jsstring) :
  (fuel <= fuel')%nat -> parseValue fuel s <> OutOfFuel ->
  parseValue fuel' s = parseValue fuel s.
Proof.
  induction 1 as [|fuel' Hle IH]; [reflexivity|].
  intros H. rewrite <- (IH H).
  apply (proj1 (parse_grows fuel')). rewrite (IH H). exact H.
Qed.

Lemma parseElements_more_fuel (fuel fuel' : nat) (s : jsstring) :
  (fuel <= fuel')%nat -> parseElements fuel s <> OutOfFuel ->
  parseElements fuel' s = parseElements fuel s.
Proof.
  induction 1 as [|fuel' Hle IH]; [reflexivity|].
  intros H. rewrite <- (IH H).
  apply (proj1 (proj2 (parse_grows fuel'))). rewrite (IH H). exact H.
Qed.

Lemma parseMembers_more_fuel (fuel fuel' : nat) (s : jsstring) :
  (fuel <= fuel')%nat -> parseMembers fuel s <> OutOfFuel ->
  parseMembers fuel' s = parseMembers fuel s.
Proof.
  induction 1 as [|fuel' Hle IH]; [reflexivity|].
  intros H. rewrite <- (IH H).
  apply (proj2 (proj2 (parse_grows fuel'))). rewrite (IH H). exact H.
Qed.

(** Two units of budget per unit of input are enough. *)
Lemma parse_in_budget (fuel : nat) :
  (forall s, (2 * List.length s < fuel)%nat ->
             parseValue fuel s <> OutOfFuel) /\
  (forall s, (2 * List.length s + 1 < fuel)%nat ->
             parseElements fuel s <> OutOfFuel) /\
  (forall s, (2 * List.length s + 1 < fuel)%nat ->
             parseMembers fuel s <> OutOfFuel).
Proof.
  induction fuel as [|fuel [IHv [IHe IHm]]].
  - repeat split; intros s H; lia.
  - destruct (parse_shrinks fuel) as [Sv _].
    repeat split; intros s H; cbn [parseValue parseElements parseMembers].
    + apply valueStep_in_budget; intros s' L; [apply IHe | apply IHm]; lia.
    + apply elementsStep_in_budget;
        [apply IHv; lia | exact Sv | intros s' L; apply IHe; lia].
    + apply membersStep_in_budget;
        [intros s' L; apply IHv; lia | exact Sv
        | intros s' L; apply IHm; lia].
Qed.

(** [JSON.parse] always answers: a value or a SyntaxError. *)
Lemma parse_total (text : jsstring) : parse text <> OutOfFuel.
Proof.
  unfold parse.
  pose proof (skipWs_length text) as L.
  assert (H : parseValue (S (2 * List.length text)) (skipWs text)
              <> OutOfFuel)
    by (apply (proj1 (parse_in_budget _)); lia).
  destruct (parseValue _ _) as [[v r]| |]; simpl; try congruence.
  destruct (skipWs r); discriminate.
Qed.

End JSONFuel.

(** ** JSON: reading back what was written *)

Module JSONRoundTrip.
Import JSON JSONFacts JSONFuel.

Lemma value_ind' (P : value -> Prop) :
  P Null ->
  (forall b, P (Bool b)) ->
  (forall literal, P (Num literal)) ->
  (forall s, P (Str s)) ->
  (forall items, Forall P items -> P (Arr items)) ->
  (forall members, Forall (fun member => P (snd member)) members ->
                   P (Obj members)) ->
  forall v, P v.
Proof.
  intros HNull HBool HNum HStr HArr HObj.
  fix IH 1. intros [ | b | literal | s | items | members].
  - exact HNull.
  - apply HBool.
  - apply HNum.
  - apply HStr.
  - apply HArr. induction items as [|x items IHitems]; constructor.
    + apply IH.
    + exact IHitems.
  - apply HObj. induction members as [|[k x] members IHmembers]; constructor.
    + apply IH.
    + exact IHmembers.
Qed.

(** The text of a value with no number starts with a token that is neither
    white space nor a closing bracket. *)
Lemma stringify_token (v : value) :
  numFree v = true ->
  exists c tl, stringify v = c :: tl /\ isWs c = false /\
               (c =? 93)%N = false /\ (c =? 125)%N = false.
Proof.
  destruct v as [ | [|] | literal | s | items | members]; simpl;
    try discriminate; intros _; eexists; eexists;
    (split; [reflexivity | repeat split; reflexivity]).
Qed.

Lemma skipWs_token (c : N) (tl : jsstring) :
  isWs c = false -> skipWs (c :: tl) = c :: tl.
Proof. intros H. unfold skipWs. simpl. rewrite H. reflexivity. Qed.

Lemma skipWs_stringify (v : value) (rest : jsstring) :
  numFree v = true -> skipWs (stringify v ++ rest) = stringify v ++ rest.
Proof.
  intros H. destruct (stringify_token v H) as [c [tl [E [W _]]]].
  rewrite E. apply skipWs_token. exact W.
Qed.

Lemma quote_app (s rest : jsstring) :
  quote s ++ rest = (34 :: quoteUnits s ++ 34 :: rest)%N.
Proof. unfold quote. simpl. rewrite <- app_assoc. reflexivity. Qed.

Section StepsOnText.

Variable value_ : jsstring -> result (value * jsstring).
Variable elements_ : jsstring -> result (list value * jsstring).
Variable members_ : jsstring -> result (list (jsstring * value) * jsstring).

Lemma valueStep_string (s rest : jsstring) :
  valueStep elements_ members_ (quote s ++ rest) = Ok (Str s, rest).
Proof.
  rewrite quote_app. unfold valueStep.
  change (34 =? 34)%N with true. cbv iota.
  rewrite parseChars_quoteUnits. reflexivity.
Qed.

Lemma valueStep_array (x : value) (items : list value) (text rest : jsstring) :
  numFree x = true ->
  elements_ (stringify x ++ text) = Ok (items, rest) ->
  valueStep elements_ members_ (91 :: stringify x ++ text)%N
  = Ok (Arr items, rest).
Proof.
  intros Hx He. unfold valueStep.
  change (91 =? 34)%N with false. change (91 =? 91)%N with true. cbv iota.
  rewrite (skipWs_stringify x _ Hx).
  destruct (stringify_token x Hx) as [c [tl [E [_ [C _]]]]].
  rewrite E in *. cbn [app] in *. rewrite C, He. reflexivity.
Qed.

Lemma valueStep_object (k : jsstring) (ms : list (jsstring * value))
    (text rest : jsstring) :
  members_ (quote k ++ text) = Ok (ms, rest) ->
  valueStep elements_ members_ (123 :: quote k ++ text)%N
  = Ok (Obj ms, rest).
Proof.
  intros Hm. unfold valueStep.
  change (123 =? 34)%N with false. change (123 =? 91)%N with false.
  change (123 =? 123)%N with true. cbv iota.
  rewrite quote_app in *. rewrite skipWs_token by reflexivity.
  change (34 =? 125)%N with false. cbv iota.
  rewrite Hm. reflexivity.
Qed.

Lemma elementsStep_last (x : value) (rest : jsstring) :
  value_ (stringify x ++ 93 :: rest)%N = Ok (x, (93 :: rest)%N) ->
  elementsStep value_ elements_ (stringify x ++ 93 :: rest)%N
  = Ok ([x], rest).
Proof. intros Hv. unfold elementsStep. rewrite Hv. reflexivity. Qed.

Lemma elementsStep_more (x y : value) (more : list value)
    (text rest : jsstring) :
  numFree y = true ->
  value_ (stringify x ++ 44 :: stringify y ++ text)%N
  = Ok (x, (44 :: stringify y ++ text)%N) ->
  elements_ (stringify y ++ text) = Ok (more, rest) ->
  elementsStep value_ elements_ (stringify x ++ 44 :: stringify y ++ text)%N
  = Ok (x :: more, rest).
Proof.
  intros Hy Hv He. unfold elementsStep. rewrite Hv. cbn [bind].
  rewrite skipWs_token by reflexivity.
  change (44 =? 44)%N with true. cbv iota.
  rewrite (skipWs_stringify y _ Hy), He. reflexivity.
Qed.

Lemma membersStep_last (k : jsstring) (x : value) (rest : jsstring) :
  numFree x = true ->
  value_ (stringify x ++ 125 :: rest)%N = Ok (x, (125 :: rest)%N) ->
  membersStep value_ members_ (quote k ++ 58 :: stringify x ++ 125 :: rest)%N
  = Ok ([(k, x)], rest).
Proof.
  intros Hx Hv. rewrite quote_app. unfold membersStep.
  change (34 =? 34)%N with true. cbn [negb]. cbv iota.
  rewrite parseChars_quoteUnits. cbn [ofOption bind].
  rewrite skipWs_token by reflexivity.
  change (58 =? 58)%N with true. cbn [negb]. cbv iota.
  rewrite (skipWs_stringify x _ Hx), Hv. reflexivity.
Qed.

Lemma membersStep_more (k k' : jsstring) (x : value)
    (more : list (jsstring * value)) (text rest : jsstring) :
  numFree x = true ->
  value_ (stringify x ++ 44 :: quote k' ++ text)%N
  = Ok (x, (44 :: quote k' ++ text)%N) ->
  members_ (quote k' ++ text) = Ok (more, rest) ->
  membersStep value_ members_
    (quote k ++ 58 :: stringify x ++ 44 :: quote k' ++ text)%N
  = Ok ((k, x) :: more, rest).
Proof.
  intros Hx Hv Hm. rewrite quote_app. unfold membersStep.
  change (34 =? 34)%N with true. cbn [negb]. cbv iota.
  rewrite parseChars_quoteUnits. cbn [ofOption bind].
  rewrite skipWs_token by reflexivity.
  change (58 =? 58)%N with true. cbn [negb]. cbv iota.
  rewrite (skipWs_stringify x _ Hx), Hv. cbn [bind].
  rewrite skipWs_token by reflexivity.
  change (44 =? 44)%N with true. cbv iota.
  rewrite quote_app in *. rewrite skipWs_token by reflexivity.
  rewrite Hm. reflexivity.
Qed.

End StepsOnText.


Lemma elements_read_back (more : list value) :
  Forall readsBack more -> forallb numFree more = true ->
  forall x rest, readsBack x ->
  exists fuel,
    parseElements fuel
      (stringify x ++ afterFirst stringify more ++ 93 :: rest)%N
    = Ok (x :: more, rest).
Proof.
  induction more as [|y more IH]; intros HF HN x rest Hx.
  - destruct (Hx (93 :: rest)%N) as [f Hf]. exists (S f).
    cbn [afterFirst app parseElements]. apply elementsStep_last. exact Hf.
  - inversion HF as [|? ? Hy HF']; subst.
    cbn [forallb] in HN. apply andb_true_iff in HN. destruct HN as [Ny HN].
    cbn [afterFirst app]. rewrite <- ?app_assoc.
    destruct (IH HF' HN y rest Hy) as [f2 H2].

    destruct (Hx (44 :: stringify y ++ afterFirst stringify more
                     ++ 93 :: rest)%N) as [f1 H1].
    exists (S (Nat.max f1 f2)). cbn [parseElements].
    apply elementsStep_more.
    + exact Ny.
    + rewrite (parseValue_more_fuel f1) by (try lia; rewrite H1; discriminate).
      exact H1.
    + rewrite (parseElements_more_fuel f2)
        by (try lia; rewrite H2; discriminate).
      exact H2.
Qed.

Lemma members_read_back (more : list (jsstring * value)) :
  Forall (fun member => readsBack (snd member)) more ->
  forallb (fun member => numFree (snd member)) more = true ->
  forall k x rest, readsBack x -> numFree x = true ->
  exists fuel,
    parseMembers fuel
      (quote k ++ 58 :: stringify x ++ afterFirst memberText more
       ++ 125 :: rest)%N
    = Ok ((k, x) :: more, rest).
Proof.
  induction more as [|[k' y] more IH]; intros HF HN k x rest Hx Nx.
  - destruct (Hx (125 :: rest)%N) as [f Hf]. exists (S f).
    cbn [afterFirst app parseMembers]. apply membersStep_last; assumption.
  - inversion HF as [|? ? Hy HF']; subst. cbn [snd] in Hy.
    cbn [forallb snd] in HN. apply andb_true_iff in HN.
    destruct HN as [Ny HN].
    cbn [afterFirst app]. unfold memberText at 1. cbn [fst snd].
    rewrite <- ?app_assoc. cbn [app]. rewrite <- ?app_assoc.
    destruct (IH HF' HN k' y rest Hy Ny) as [f2 H2].
    destruct (Hx (44 :: quote k' ++ 58 :: stringify y
                     ++ afterFirst memberText more ++ 125 :: rest)%N)
      as [f1 H1].
    exists (S (Nat.max f1 f2)). cbn [parseMembers].
    apply membersStep_more.
    + exact Nx.
    + rewrite (parseValue_more_fuel f1) by (try lia; rewrite H1; discriminate).
      exact H1.
    + rewrite (parseMembers_more_fuel f2)
        by (try lia; rewrite H2; discriminate).
      exact H2.
Qed.

(** Every value with no number in it is read back from its text. *)
Lemma stringify_reads_back (v : value) : numFree v = true -> readsBack v.
Proof.
  induction v as [ | b | literal | s | items IH | members IH] using value_ind';
    intros HN rest.
  - exists 1%nat. reflexivity.
  - exists 1%nat. destruct b; reflexivity.
  - discriminate.
  - exists 1%nat. cbn [parseValue stringify]. apply valueStep_string.
  - cbn [numFree] in HN. destruct items as [|x more].
    + exists 1%nat. reflexivity.
    + inversion IH as [|? ? Hx HF]; subst.
      cbn [forallb] in HN. apply andb_true_iff in HN.
      destruct HN as [Nx HN].
      assert (HF' : Forall readsBack more).
      { clear - HF HN. induction more as [|y more IHm]; constructor.
        - inversion HF; subst. cbn [forallb] in HN.
          apply andb_true_iff in HN. tauto.
        - inversion HF; subst. cbn [forallb] in HN.
          apply andb_true_iff in HN. apply IHm; tauto. }
      destruct (elements_read_back more HF' HN x rest (Hx Nx)) as [f Hf].
      exists (S f). cbn [parseValue stringify commaSeparated app].
      rewrite <- ?app_assoc. cbn [app].
      apply valueStep_array; assumption.
  - cbn [numFree] in HN. destruct members as [|[k x] more].
    + exists 1%nat. reflexivity.
    + inversion IH as [|? ? Hx HF]; subst. cbn [snd] in Hx.
      cbn [forallb snd] in HN. apply andb_true_iff in HN.
      destruct HN as [Nx HN].
      assert (HF' : Forall (fun member => readsBack (snd member)) more).
      { clear - HF HN. induction more as [|[k' y] more IHm]; constructor.
        - inversion HF; subst. cbn [forallb snd] in *.
          apply andb_true_iff in HN. tauto.
        - inversion HF; subst. cbn [forallb] in HN.
          apply andb_true_iff in HN. apply IHm; tauto. }
      destruct (members_read_back more HF' HN k x rest (Hx Nx) Nx) as [f Hf].
      exists (S f). cbn [parseValue stringify commaSeparated app fst snd].
      fold memberText.
      rewrite <- ?app_assoc. cbn [app]. rewrite <- ?app_assoc.
      apply valueStep_object. exact Hf.
Qed.

(** [JSON.parse(JSON.stringify(v))] is [v] for every value with no number
    in it. *)
Lemma parse_stringify (v : value) :
  numFree v = true -> parse (stringify v) = Ok v.
Proof.
  intros HN. unfold parse.
  pose proof (skipWs_stringify v [] HN) as W. rewrite app_nil_r in W.
  rewrite W.
  destruct (stringify_reads_back v HN []) as [f Hf].
  rewrite app_nil_r in Hf.
  set (F := S (2 * List.length (stringify v))).
  assert (HF : parseValue F (stringify v) <> OutOfFuel)
    by (apply (proj1 (parse_in_budget F)); subst F; lia).
  assert (E : parseValue F (stringify v) = Ok (v, [])).
  { destruct (Nat.le_ge_cases f F) as [L | L].
    - rewrite (parseValue_more_fuel f F) by (try lia; rewrite Hf; discriminate).
      exact Hf.
    - rewrite <- (parseValue_more_fuel F f _ L HF). exact Hf. }
  rewrite E. reflexivity.
Qed.

End JSONRoundTrip.

(** ** Persistence *)

Lemma numFree_medicationsValue (meds : list Medication) :
  JSON.numFree (medicationsValue meds) = true.
Proof.
  unfold medicationsValue. cbn [JSON.numFree].
  induction meds as [|m meds IH]; [reflexivity|].
  cbn [map forallb]. rewrite IH, andb_true_r.
  destruct m as [i n d f t [day|] b]; reflexivity.
Qed.

Lemma asMedication_toJSON (m : Medication) : asMedication (toJSON m) = Some m.
Proof. destruct m as [i n d f t [day|] b]; reflexivity. Qed.

Lemma asMedications_medicationsValue (meds : list Medication) :
  asMedications (medicationsValue meds) = Some meds.
Proof.
  unfold medicationsValue, asMedications.
  induction meds as [|m meds IH]; [reflexivity|].
  cbn [map asMedicationList]. rewrite asMedication_toJSON, IH. reflexivity.
Qed.

(** C8. Writing a collection to the store and loading it at the next start
    gives the collection back: the text parses to the array of the same
    medication objects, which read at the type [Medication] are the same
    medications, field by field, in the same order. *)
Theorem persist_then_reload (meds : list Medication) :
  initialMedications (persist meds) = JSON.Ok (medicationsValue meds) /\
  asMedications (medicationsValue meds) = Some meds.
Proof.
  split; [|apply asMedications_medicationsValue].
  unfold persist, initialMedications.
  change (falsy (JSON.stringify (medicationsValue meds))) with false.
  cbv iota.
  apply JSONRoundTrip.parse_stringify, numFree_medicationsValue.
Qed.

(** C2, as the code has it. With no stored text, or with the empty text,
    the collection starts empty. With any other stored text the start is
    what [JSON.parse] makes of it: the parsed value when the text parses,
    and otherwise the SyntaxError that [JSON.parse] throws, which nothing
    catches. *)
Theorem initialMedications_outcome (saved : Storage) :
  (initialMedications saved = JSON.Ok (JSON.Arr []) /\
   (saved = None \/ saved = Some [])) \/
  (exists text,
     saved = Some text /\ text <> [] /\
     initialMedications saved = JSON.parse text /\
     ((exists v, JSON.parse text = JSON.Ok v) \/
      JSON.parse text = JSON.SyntaxError)).
Proof.
  destruct saved as [[|c text]|].
  - left. split; [reflexivity | right; reflexivity].
  - right. exists (c :: text). split; [reflexivity|].
    split; [discriminate|]. split; [reflexivity|].
    pose proof (JSONFuel.parse_total (c :: text)) as T.
    destruct (JSON.parse (c :: text)) as [v| |].
    + left. exists v. reflexivity.
    + right. reflexivity.
    + congruence.
  - left. split; [reflexivity | left; reflexivity].
Qed.

(** C2 as worded fails: a stored text cut short after its first two
    characters does not parse, and the start throws instead of giving the
    empty collection. *)
Lemma unparsable_storage_throws :
  JSON.parse (lit "[{") = JSON.SyntaxError /\
  initialMedications (Some (lit "[{")) = JSON.SyntaxError /\
  ~ (forall saved : Storage,
       exists v, initialMedications saved = JSON.Ok v).
Proof.
  split; [reflexivity|]. split; [reflexivity|].
  intros H. destruct (H (Some (lit "[{"))) as [v E]. discriminate.
Qed.

(** * Further properties of the handlers *)

(** ** Deleting *)

Lemma state_eta (st : State) :
  mkState (medications st) (newMedication st) (showForm st)
          (notifications st) = st.
Proof. destruct st; reflexivity. Qed.

Lemma filter_all {A} (p : A -> bool) (l : list A) :
  (forall x, In x l -> p x = true) -> filter p l = l.
Proof.
  induction l as [|x l IH]; intros H; simpl; [reflexivity|].
  rewrite (H x (or_introl eq_refl)), IH; [reflexivity|].
  intros y Hy. apply H. right. exact Hy.
Qed.

Lemma filter_withoutId (i : jsstring) (meds : list Medication) :
  withoutId i meds (filter (fun med => negb (str_eqb (id med) i)) meds).
Proof.
  induction meds as [|m meds IH]; simpl; [constructor|].
  destruct (str_eqb (id m) i) eqn:E; simpl.
  - apply str_eqb_eq in E. apply withoutId_drop; assumption.
  - apply not_true_iff_false in E. rewrite str_eqb_eq in E.
    apply withoutId_keep; assumption.
Qed.

Lemma withoutId_unique (i : jsstring) (meds kept kept' : list Medication) :
  withoutId i meds kept -> withoutId i meds kept' -> kept = kept'.
Proof.
  intros H. revert kept'. induction H as [|m meds kept Hid H IH|m meds kept Hid H IH];
    intros kept' H'; inversion H'; subst; try congruence; auto.
  f_equal. apply IH. assumption.
Qed.

(** Deleting an id removes every medication with that id and no other: the
    collection after it is the one before it without its entries of that
    id, every other entry kept once for each time it occurred, in order; no
    other list is. The form and the pending banners, those of the deleted
    medication included, are as they were. *)
Theorem delete_removes_the_id (i : jsstring) (st : State) :
  let st' := handleDeleteMedication i st in
  withoutId i (medications st) (medications st') /\
  (forall kept, withoutId i (medications st) kept -> kept = medications st') /\
  (forall m, In m (medications st') <-> In m (medications st) /\ id m <> i) /\
  (List.length (medications st') +
   List.length (filter (fun med => str_eqb (id med) i) (medications st))
   = List.length (medications st))%nat /\
  notifications st' = notifications st /\
  newMedication st' = newMedication st /\
  showForm st' = showForm st.
Proof.
  cbn zeta. unfold handleDeleteMedication, with_medications.
  cbn [medications notifications newMedication showForm].
  split; [apply filter_withoutId|].
  split; [intros kept H; exact (withoutId_unique i _ _ _ H (filter_withoutId i _))|].
  split; [|split; [|repeat split]].
  - intros m. rewrite filter_In, negb_true_iff.
    rewrite <- (not_true_iff_false (str_eqb _ _)), str_eqb_eq. tauto.
  - induction (medications st) as [|m meds IH]; simpl; [reflexivity|].
    destruct (str_eqb (id m) i); simpl; lia.
Qed.

(** Deleting an id that no medication carries changes nothing. *)
Theorem delete_absent_id (i : jsstring) (st : State) :
  (forall m, In m (medications st) -> id m <> i) ->
  handleDeleteMedication i st = st.
Proof.
  intros H. unfold handleDeleteMedication, with_medications.
  rewrite filter_all; [apply state_eta|].
  intros m Hm. apply negb_true_iff, not_true_iff_false.
  rewrite str_eqb_eq. apply H. exact Hm.
Qed.

Lemma delete_absent_id_witness :
  (forall m, In m (medications (mkState [aspirin] emptyForm false [])) ->
             id m <> lit "42") /\
  handleDeleteMedication (lit "42") (mkState [aspirin] emptyForm false [])
  = mkState [aspirin] emptyForm false [].
Proof.
  assert (H : forall m, In m (medications (mkState [aspirin] emptyForm false []))
                        -> id m <> lit "42").
  { intros m [<- | []]. discriminate. }
  split; [exact H|].
  exact (delete_absent_id (lit "42") (mkState [aspirin] emptyForm false []) H).
Defined.

Lemma filter_comm {A} (p q : A -> bool) (l : list A) :
  filter p (filter q l) = filter q (filter p l).
Proof.
  induction l as [|x l IH]; simpl; [reflexivity|].
  destruct (p x) eqn:P, (q x) eqn:Q; simpl; rewrite ?P, ?Q, IH; reflexivity.
Qed.

Lemma filter_twice {A} (p : A -> bool) (l : list A) :
  filter p (filter p l) = filter p l.
Proof.
  apply filter_all. intros x Hx. apply filter_In in Hx. tauto.
Qed.

(** Deleting twice is deleting once, and two deletions can be made in either
    order. *)
Theorem delete_twice_and_commute (i j : jsstring) (st : State) :
  handleDeleteMedication i (handleDeleteMedication i st)
  = handleDeleteMedication i st /\
  handleDeleteMedication i (handleDeleteMedication j st)
  = handleDeleteMedication j (handleDeleteMedication i st).
Proof.
  unfold handleDeleteMedication, with_medications. simpl. split.
  - rewrite filter_twice. reflexivity.
  - rewrite filter_comm. reflexivity.
Qed.

(** ** Taking *)

Lemma map_id_on {A} (f : A -> A) (l : list A) :
  (forall x, In x l -> f x = x) -> map f l = l.
Proof.
  induction l as [|x l IH]; intros H; simpl; [reflexivity|].
  rewrite (H x (or_introl eq_refl)), IH; [reflexivity|].
  intros y Hy. apply H. right. exact Hy.
Qed.

Lemma find_none_on {A} (p : A -> bool) (l : list A) :
  (forall x, In x l -> p x = false) -> find p l = None.
Proof.
  induction l as [|x l IH]; intros H; simpl; [reflexivity|].
  rewrite (H x (or_introl eq_refl)). apply IH.
  intros y Hy. apply H. right. exact Hy.
Qed.

(** Taking an id that no medication carries changes nothing: no medication
    is marked and no banner is removed. *)
Theorem take_absent_id (now : Date) (i : jsstring) (st : State) :
  (forall m, In m (medications st) -> id m <> i) ->
  handleTakeMedication now i st = st.
Proof.
  intros H.
  assert (F : forall m, In m (medications st) -> str_eqb (id m) i = false).
  { intros m Hm. apply not_true_iff_false. rewrite str_eqb_eq.
    apply H. exact Hm. }
  unfold handleTakeMedication.
  rewrite (find_none_on _ _ F), map_id_on; [apply state_eta|].
  intros m Hm. rewrite (F m Hm). reflexivity.
Qed.

Lemma take_absent_id_witness :
  let st := mkState [with_missed aspirin true] emptyForm false
                    [notificationText aspirin] in
  (forall m, In m (medications st) -> id m <> lit "42") /\
  handleTakeMedication (jan1 9 0) (lit "42") st = st.
Proof.
  cbn zeta.
  assert (H : forall m,
             In m (medications (mkState [with_missed aspirin true] emptyForm
                                        false [notificationText aspirin])) ->
             id m <> lit "42").
  { intros m [<- | []]. discriminate. }
  split; [exact H|].
  exact (take_absent_id (jan1 9 0) (lit "42") _ H).
Defined.

(** Taking an id keeps the length and the order of the collection and, at
    every position, the fields [id], [name], [dosage], [frequency] and
    [time]; a medication with that id gets the day of the call as
    [lastTaken] and [missed] false, every other medication is untouched. The
    form is untouched and no banner is added. *)
Theorem take_frame (now : Date) (i : jsstring) (st : State) :
  let st' := handleTakeMedication now i st in
  Forall2
    (fun m m' =>
       id m' = id m /\ name m' = name m /\ dosage m' = dosage m /\
       frequency m' = frequency m /\ time m' = time m /\
       (id m = i -> lastTaken m' = Some (toLocaleDateString now) /\
                    missed m' = false) /\
       (id m <> i -> m' = m))
    (medications st) (medications st') /\
  newMedication st' = newMedication st /\
  showForm st' = showForm st /\
  (forall note, In note (notifications st') -> In note (notifications st)).
Proof.
  cbn zeta. unfold handleTakeMedication.
  cbn [medications notifications newMedication showForm].
  split; [|split; [reflexivity | split; [reflexivity|]]].
  - induction (medications st) as [|m meds IH]; simpl; constructor; auto.
    destruct (str_eqb (id m) i) eqn:E.
    + apply str_eqb_eq in E. simpl. repeat split; auto. congruence.
    + apply not_true_iff_false in E. rewrite str_eqb_eq in E.
      repeat split; auto; intros; congruence.
  - intros note. destruct (find _ _); [|tauto].
    rewrite filter_In. tauto.
Qed.

Lemma find_map_same {A} (p : A -> bool) (f : A -> A) (l : list A) :
  (forall x, p (f x) = p x) ->
  find p (map f l) = option_map f (find p l).
Proof.
  intros H. induction l as [|x l IH]; simpl; [reflexivity|].
  rewrite H. destruct (p x); [reflexivity | exact IH].
Qed.

(** Taking the same id twice at one date is taking it once. *)
Theorem take_twice (now : Date) (i : jsstring) (st : State) :
  handleTakeMedication now i (handleTakeMedication now i st)
  = handleTakeMedication now i st.
Proof.
  unfold handleTakeMedication.
  cbn [medications notifications newMedication showForm].
  set (f := fun med => if str_eqb (id med) i
                       then with_taken med (toLocaleDateString now) else med).
  assert (Hid : forall m, str_eqb (id (f m)) i = str_eqb (id m) i).
  { intros m. unfold f. destruct (str_eqb (id m) i) eqn:E; simpl; auto. }
  assert (Hf : forall m, f (f m) = f m).
  { intros m. unfold f at 1. rewrite Hid. unfold f.
    destruct (str_eqb (id m) i); reflexivity. }
  f_equal.
  - rewrite map_map. apply map_ext. exact Hf.
  - rewrite (find_map_same _ f _ Hid).
    destruct (find _ (medications st)) as [m|]; simpl; [|reflexivity].
    replace (name (f m)) with (name m)
      by (unfold f; destruct (str_eqb (id m) i); reflexivity).
    apply filter_twice.
Qed.

Lemma includes_own_name (m : Medication) :
  includes (notificationText m) (name m) = true.
Proof.
  apply includes_substring. unfold substring, notificationText.
  exists (lit "Time to take "), (lit " (" ++ dosage m ++ lit ")").
  reflexivity.
Qed.

(** Taking a medication removes its own banner: when the lookup finds [m],
    no pending banner is left that has the text the check emits for [m]. *)
Theorem take_removes_own_banner
    (now : Date) (i : jsstring) (st : State) (m : Medication) :
  find (fun med => str_eqb (id med) i) (medications st) = Some m ->
  ~ In (notificationText m) (notifications (handleTakeMedication now i st)).
Proof.
  intros Hfind Hin. unfold handleTakeMedication in Hin.
  cbn [notifications] in Hin. rewrite Hfind in Hin.
  apply filter_In in Hin. destruct Hin as [_ Hin].
  rewrite includes_own_name in Hin. discriminate.
Qed.

Lemma take_removes_own_banner_witness :
  let st := mkState [with_missed aspirin true] emptyForm false
                    [notificationText aspirin] in
  find (fun med => str_eqb (id med) (id aspirin)) (medications st)
  = Some (with_missed aspirin true) /\
  ~ In (notificationText (with_missed aspirin true))
       (notifications (handleTakeMedication (jan1 9 0) (id aspirin) st)).
Proof.
  split; [reflexivity|].
  apply (take_removes_own_banner (jan1 9 0) (id aspirin)
           (mkState [with_missed aspirin true] emptyForm false
                    [notificationText aspirin])
           (with_missed aspirin true)).
  reflexivity.
Defined.

(** ** Checking *)

Lemma dueGuard_after_check (now : Date) (m : Medication) :
  dueGuard now (fst (checkMed now m)) = false.
Proof.
  rewrite checkMed_guard. destruct (dueGuard now m) eqn:G; [|exact G].
  unfold dueGuard. simpl. apply andb_false_r.
Qed.

Lemma checkMed_not_due (now : Date) (m : Medication) :
  dueGuard now m = false -> checkMed now m = (m, []).
Proof. intros G. rewrite checkMed_guard, G. reflexivity. Qed.

Lemma checkMedications_newMedication (now : Date) (st : State) :
  newMedication (checkMedications now st) = newMedication st.
Proof.
  unfold checkMedications. destruct (checkAll now (medications st)).
  reflexivity.
Qed.

Lemma checkMedications_showForm (now : Date) (st : State) :
  showForm (checkMedications now st) = showForm st.
Proof.
  unfold checkMedications. destruct (checkAll now (medications st)).
  reflexivity.
Qed.

(** Running the check a second time at the same clock reading changes
    nothing: no flag moves and no banner is added. *)
Theorem checkDue_twice (now : Date) (st : State) :
  checkMedications now (checkMedications now st) = checkMedications now st.
Proof.
  assert (E : forall l,
             map (fun m => fst (checkMed now m))
                 (map (fun m => fst (checkMed now m)) l)
             = map (fun m => fst (checkMed now m)) l /\
             List.concat (map (emitted now)
                              (map (fun m => fst (checkMed now m)) l)) = []).
  { induction l as [|m l [IH1 IH2]]; [split; reflexivity|].
    cbn [map List.concat]. rewrite IH1, IH2.
    unfold emitted.
    rewrite (checkMed_not_due now _ (dueGuard_after_check now m)).
    split; reflexivity. }
  destruct (E (medications st)) as [E1 E2].
  rewrite <- (state_eta (checkMedications now (checkMedications now st))).
  rewrite <- (state_eta (checkMedications now st)) at 5.
  rewrite !checkMedications_newMedication, !checkMedications_showForm.
  rewrite (checkMedications_medications now (checkMedications now st)).
  rewrite (checkMedications_notifications now (checkMedications now st)).
  rewrite (checkMedications_medications now st).
  rewrite E1, E2, app_nil_r. reflexivity.
Qed.

(** A run of the check leaves the state as it was exactly when no
    medication is due and unconfirmed at that time. *)
Theorem checkDue_changes_nothing_iff (now : Date) (st : State) :
  checkMedications now st = st <->
  forall m, In m (medications st) -> ~ dueUnconfirmed now m.
Proof.
  split.
  - intros E m Hm D. apply dueGuard_dueUnconfirmed in D.
    pose proof (checkMedications_notifications now st) as N.
    rewrite E, concat_emitted_filter in N.
    assert (F : filter (dueGuard now) (medications st) = []).
    { apply (f_equal (@List.length jsstring)) in N.
      rewrite length_app, length_map in N.
      destruct (filter (dueGuard now) (medications st)); [reflexivity|].
      simpl in N. lia. }
    assert (Hin : In m (filter (dueGuard now) (medications st)))
      by (apply filter_In; split; assumption).
    rewrite F in Hin. exact Hin.
  - intros H.
    assert (G : forall m, In m (medications st) -> dueGuard now m = false).
    { intros m Hm. apply not_true_iff_false.
      rewrite dueGuard_dueUnconfirmed. apply H. exact Hm. }
    rewrite <- (state_eta (checkMedications now st)).
    rewrite checkMedications_newMedication, checkMedications_showForm.
    rewrite checkMedications_medications, checkMedications_notifications.
    rewrite concat_emitted_filter.
    assert (F : filter (dueGuard now) (medications st) = []).
    { clear H. induction (medications st) as [|m l IH]; [reflexivity|].
      simpl. rewrite (G m (or_introl eq_refl)). apply IH.
      intros x Hx. apply G. right. exact Hx. }
    rewrite F, app_nil_r, map_id_on.
    + apply state_eta.
    + intros m Hm. rewrite (checkMed_not_due now m (G m Hm)). reflexivity.
Qed.

(** ** Dismissing a banner *)

Lemma filterOtherIndex_past {A} (index from : nat) (l : list A) :
  (index < from)%nat -> filterOtherIndex index from l = l.
Proof.
  revert from. induction l as [|x l IH]; intros from H; simpl; [reflexivity|].
  replace (Nat.eqb from index) with false
    by (symmetry; apply Nat.eqb_neq; lia).
  rewrite IH by lia. reflexivity.
Qed.

Lemma filterOtherIndex_removeAt {A} (k from : nat) (l : list A) :
  filterOtherIndex (from + k) from l = removeAt k l.
Proof.
  revert k from. induction l as [|x l IH]; intros k from; simpl.
  - destruct k; reflexivity.
  - destruct k as [|k].
    + rewrite Nat.add_0_r, Nat.eqb_refl.
      apply filterOtherIndex_past. lia.
    + replace (Nat.eqb from (from + S k)) with false
        by (symmetry; apply Nat.eqb_neq; lia).
      replace (from + S k)%nat with (S from + k)%nat by lia.
      rewrite IH. reflexivity.
Qed.

Lemma removeAt_firstn_skipn {A} (k : nat) (l : list A) :
  removeAt k l = firstn k l ++ skipn (S k) l.
Proof.
  revert k. induction l as [|x l IH]; intros [|k]; simpl; try reflexivity.
  rewrite IH. reflexivity.
Qed.

(** Dismissing the banner at a position removes that one entry, as the
    filter on positions of the source does: the banners before it and after
    it stay in order, one fewer in all, and an index past the end removes
    nothing. The medications are not touched. *)
Theorem dismiss_removes_one (index : nat) (st : State) :
  let st' := dismissNotification index st in
  notifications st' = filterOtherIndex index 0 (notifications st) /\
  notifications st' =
    firstn index (notifications st) ++ skipn (S index) (notifications st) /\
  ((index < List.length (notifications st))%nat ->
   S (List.length (notifications st')) = List.length (notifications st)) /\
  ((List.length (notifications st) <= index)%nat -> st' = st) /\
  medications st' = medications st.
Proof.
  cbn zeta. unfold dismissNotification, with_notifications.
  cbn [notifications medications].
  split; [|split; [|split; [|split]]].
  - symmetry. apply (filterOtherIndex_removeAt index 0).
  - apply removeAt_firstn_skipn.
  - intros H. rewrite removeAt_firstn_skipn, length_app, length_firstn,
      length_skipn. lia.
  - intros H. rewrite removeAt_firstn_skipn, firstn_all2 by exact H.
    rewrite skipn_all2 by lia. rewrite app_nil_r. apply state_eta.
  - reflexivity.
Qed.

(** ** Adding *)

(** Filling the form and submitting it with a name and a dosage appends the
    medication made of the four typed values, the text of the clock reading
    as id, no day taken and no flag; the form goes back to its defaults
    (empty name and dosage, daily, 08:00) and is hidden; the banners stay. *)
Theorem addMedication_from_inputs
    (n d f t : jsstring) (nowMs : Z) (st : State) :
  n <> [] -> d <> [] ->
  addMedication n d f t nowMs st =
  (mkState (medications st ++
              [mkMedication (toString nowMs) n d f t None false])
           (mkForm [] [] (lit "daily") (lit "08:00")) false
           (notifications st),
   None).
Proof.
  intros Hn Hd. unfold addMedication, handleAddMedication. simpl.
  destruct n; [congruence|]. destruct d; [congruence|]. reflexivity.
Qed.

Lemma addMedication_from_inputs_witness :
  lit "Ibuprofen" <> [] /\ lit "200mg" <> [] /\
  addMedication (lit "Ibuprofen") (lit "200mg") (lit "weekly") (lit "21:15")
                1700000000500 (mkState [aspirin] emptyForm true []) =
  (mkState ([aspirin] ++
              [mkMedication (toString 1700000000500) (lit "Ibuprofen")
                            (lit "200mg") (lit "weekly") (lit "21:15")
                            None false])
           (mkForm [] [] (lit "daily") (lit "08:00")) false [],
   None).
Proof.
  split; [discriminate|]. split; [discriminate|].
  apply (addMedication_from_inputs (lit "Ibuprofen") (lit "200mg")
           (lit "weekly") (lit "21:15") 1700000000500
           (mkState [aspirin] emptyForm true [])); discriminate.
Defined.

(** A rejected submission keeps what was typed: the four values stay in the
    form, the form stays as visible as it was, and the collection and the
    banners are untouched. *)
Theorem addMedication_rejected_keeps_inputs
    (n d f t : jsstring) (nowMs : Z) (st : State) :
  n = [] \/ d = [] ->
  addMedication n d f t nowMs st =
  (mkState (medications st) (mkForm n d f t) (showForm st)
           (notifications st),
   Some requiredFieldsAlert).
Proof.
  intros H. unfold addMedication, handleAddMedication. simpl.
  destruct H as [-> | ->]; [reflexivity|].
  rewrite orb_true_r. reflexivity.
Qed.

Lemma addMedication_rejected_keeps_inputs_witness :
  (lit "Ibuprofen" = [] \/ @nil N = []) /\
  addMedication (lit "Ibuprofen") [] (lit "weekly") (lit "21:15")
                1700000000500 (mkState [aspirin] emptyForm true []) =
  (mkState [aspirin] (mkForm (lit "Ibuprofen") [] (lit "weekly")
                             (lit "21:15")) true [],
   Some requiredFieldsAlert).
Proof.
  split; [right; reflexivity|].
  apply (addMedication_rejected_keeps_inputs (lit "Ibuprofen") []
           (lit "weekly") (lit "21:15") 1700000000500
           (mkState [aspirin] emptyForm true [])).
  right. reflexivity.
Defined.

(** Submitting again without typing anything never adds a second
    medication: after any submission, accepted or not, the next one is
    rejected and changes nothing. *)
Theorem submit_again_is_rejected (t1 t2 : Z) (st : State) :
  handleAddMedication t2 (fst (handleAddMedication t1 st)) =
  (fst (handleAddMedication t1 st), Some requiredFieldsAlert).
Proof.
  unfold handleAddMedication at 2 3.
  destruct (falsy (form_name (newMedication st))
            || falsy (form_dosage (newMedication st))) eqn:E.
  - cbn [fst]. unfold handleAddMedication. rewrite E. reflexivity.
  - reflexivity.
Qed.

(** ** What a run stores *)

Lemma addMedication_outcome (n d f t : jsstring) (nowMs : Z) (st : State) :
  medications (fst (addMedication n d f t nowMs st)) = medications st \/
  (n <> [] /\ d <> [] /\
   medications (fst (addMedication n d f t nowMs st)) =
     medications st ++ [mkMedication (toString nowMs) n d f t None false]).
Proof.
  unfold addMedication, handleAddMedication. simpl.
  destruct n as [|c n]; [left; reflexivity|].
  destruct d as [|c' d]; [left; reflexivity|].
  right. repeat split; discriminate || reflexivity.
Qed.

(** The medications after a step: each one is a medication from before the
    step, its id and its four descriptive fields the same, or the one the
    step adds. *)
Lemma step_medication_origin (st : State) (op : Op) (m' : Medication) :
  In m' (medications (step st op)) ->
  (exists m, In m (medications st) /\
             id m' = id m /\ name m' = name m /\ dosage m' = dosage m /\
             frequency m' = frequency m /\ time m' = time m) \/
  (exists n d f t nowMs,
     op = AddMedication n d f t nowMs /\ n <> [] /\ d <> [] /\
     m' = mkMedication (toString nowMs) n d f t None false).
Proof.
  intros Hin. destruct op as [n d f t nowMs | i | i now | now]; simpl in Hin.
  - destruct (addMedication_outcome n d f t nowMs st) as [E | [Hn [Hd E]]];
      rewrite E in Hin.
    + left. exists m'. repeat split; auto.
    + apply in_app_or in Hin. destruct Hin as [Hin | [<- | []]].
      * left. exists m'. repeat split; auto.
      * right. exists n, d, f, t, nowMs. repeat split; auto.
  - apply filter_In in Hin. left. exists m'. repeat split; tauto.
  - apply in_map_iff in Hin. destruct Hin as [m [E Hin]].
    left. exists m. split; [exact Hin|]. subst m'.
    destruct (str_eqb (id m) i); repeat split; reflexivity.
  - rewrite checkMedications_medications in Hin.
    apply in_map_iff in Hin. destruct Hin as [m [E Hin]].
    left. exists m. split; [exact Hin|]. subst m'.
    rewrite checkMed_guard. destruct (dueGuard now m); repeat split; reflexivity.
Qed.

Lemma addReadings_snoc (ops : list Op) (op : Op) :
  addReadings (ops ++ [op]) =
  addReadings ops ++ match op with
                     | AddMedication _ _ _ _ nowMs => [nowMs]
                     | _ => []
                     end.
Proof.
  induction ops as [|o ops IH]; simpl.
  - destruct op; reflexivity.
  - destruct o; simpl; rewrite IH; reflexivity.
Qed.

Lemma run_medication_origin (ops : list Op) (m : Medication) :
  In m (medications (run ops initialState)) ->
  exists n d f t nowMs,
    In (AddMedication n d f t nowMs) ops /\ n <> [] /\ d <> [] /\
    id m = toString nowMs /\ name m = n /\ dosage m = d /\
    frequency m = f /\ time m = t.
Proof.
  revert m. induction ops as [|op ops IH] using rev_ind; intros m.
  - simpl. tauto.
  - rewrite run_snoc. intros Hin.
    destruct (step_medication_origin _ _ _ Hin)
      as [[m0 [Hm0 [Ei [En [Ed [Ef Et]]]]]] | [n [d [f [t [ms [-> [Hn [Hd ->]]]]]]]]].
    + destruct (IH m0 Hm0) as [n [d [f [t [ms [Hop H]]]]]].
      exists n, d, f, t, ms. split; [apply in_or_app; left; exact Hop|].
      rewrite Ei, En, Ed, Ef, Et. exact H.
    + exists n, d, f, t, ms. split; [apply in_or_app; right; left; reflexivity|].
      repeat split; auto.
Qed.

Lemma In_addReadings (ops : list Op) (n d f t : jsstring) (nowMs : Z) :
  In (AddMedication n d f t nowMs) ops -> In nowMs (addReadings ops).
Proof.
  induction ops as [|o ops IH]; simpl; [tauto|].
  intros [-> | H]; [left; reflexivity|].
  destruct o; simpl; auto.
Qed.

(** In every state reached from the empty store, a stored medication has
    the name, dosage, frequency and time of one accepted addition of the
    run: its name and its dosage are not empty, and its id is the text of
    that addition's clock reading. *)
Theorem stored_medications_come_from_additions
    (ops : list Op) (m : Medication) :
  In m (medications (run ops initialState)) ->
  name m <> [] /\ dosage m <> [] /\
  exists nowMs,
    In (AddMedication (name m) (dosage m) (frequency m) (time m) nowMs) ops /\
    id m = toString nowMs.
Proof.
  intros Hin.
  destruct (run_medication_origin ops m Hin)
    as [n [d [f [t [ms [Hop [Hn [Hd [Ei [En [Ed [Ef Et]]]]]]]]]]]].
  subst n d f t. repeat split; auto. exists ms. auto.
Qed.

Lemma stored_medications_come_from_additions_witness :
  let ops := [AddMedication (lit "Aspirin") (lit "100mg") (lit "daily")
                            (lit "08:00") 1700000000000;
              CheckDue (jan1 21 0)] in
  let m := with_missed aspirin true in
  In m (medications (run ops initialState)) /\
  name m <> [] /\ dosage m <> [] /\
  exists nowMs,
    In (AddMedication (name m) (dosage m) (frequency m) (time m) nowMs) ops /\
    id m = toString nowMs.
Proof.
  split; [left; reflexivity|].
  apply (stored_medications_come_from_additions
           [AddMedication (lit "Aspirin") (lit "100mg") (lit "daily")
                          (lit "08:00") 1700000000000;
            CheckDue (jan1 21 0)]
           (with_missed aspirin true)).
  left; reflexivity.
Defined.

Lemma ids_distinct_after_filter (keep : Medication -> bool)
    (meds : list Medication) :
  NoDup (map id meds) -> NoDup (map id (filter keep meds)).
Proof.
  intros Hmeds. induction meds as [|med meds IH]; [constructor|].
  apply NoDup_cons_iff in Hmeds. destruct Hmeds as [Hfresh Hrest].
  cbn [filter]. destruct (keep med); [|exact (IH Hrest)].
  cbn [map]. apply NoDup_cons_iff. split; [|exact (IH Hrest)].
  intros Hin. apply in_map_iff in Hin. destruct Hin as [other [Eid Hother]].
  apply filter_In in Hother. apply Hfresh.
  apply in_map_iff. exists other. tauto.
Qed.

Lemma step_keeps_ids_distinct (st : State) (op : Op) :
  NoDup (map id (medications st)) ->
  (forall n d f t nowMs, op = AddMedication n d f t nowMs ->
     forall m, In m (medications st) -> id m <> toString nowMs) ->
  NoDup (map id (medications (step st op))).
Proof.
  intros H Hnew. destruct op as [n d f t nowMs | i | i now | now]; simpl.
  - destruct (addMedication_outcome n d f t nowMs st) as [E | [_ [_ E]]];
      rewrite E; [exact H|].
    rewrite map_app. simpl.
    apply NoDup_app; [exact H | repeat constructor; simpl; tauto |].
    intros x Hx [<- | []]. apply in_map_iff in Hx.
    destruct Hx as [m [E' Hm]]. exact (Hnew n d f t nowMs eq_refl m Hm E').
  - apply ids_distinct_after_filter. exact H.
  - rewrite map_map.
    erewrite map_ext; [exact H|].
    intros m. simpl. destruct (str_eqb (id m) i); reflexivity.
  - rewrite checkMedications_medications, map_map.
    erewrite map_ext; [exact H|].
    intros m. simpl. rewrite checkMed_guard.
    destruct (dueGuard now m); reflexivity.
Qed.

(** When no two additions of a run read the same millisecond on the clock,
    the ids of the stored medications are pairwise distinct in every state
    the run reaches from the empty store. *)
Theorem ids_distinct_when_readings_distinct (ops : list Op) :
  NoDup (addReadings ops) ->
  NoDup (map id (medications (run ops initialState))).
Proof.
  induction ops as [|op ops IH] using rev_ind; intros H.
  - constructor.
  - rewrite run_snoc. rewrite addReadings_snoc in H.
    apply step_keeps_ids_distinct.
    + apply IH. apply NoDup_app_remove_r in H. exact H.
    + intros n d f t nowMs -> m Hm E.
      destruct (run_medication_origin ops m Hm)
        as [n' [d' [f' [t' [ms [Hop [_ [_ [Ei _]]]]]]]]].
      rewrite Ei in E. apply toString_inj in E. subst ms.
      apply In_addReadings in Hop.
      apply NoDup_remove_2 in H. rewrite app_nil_r in H.
      exact (H Hop).
Qed.

Lemma ids_distinct_when_readings_distinct_witness :
  let ops := [AddMedication (lit "Aspirin") (lit "100mg") (lit "daily")
                            (lit "08:00") 1700000000000;
              CheckDue (jan1 21 0);
              AddMedication (lit "Ibuprofen") (lit "200mg") (lit "weekly")
                            (lit "21:15") 1700000000500] in
  NoDup (addReadings ops) /\
  NoDup (map id (medications (run ops initialState))).
Proof.
  cbn zeta.
  assert (H : NoDup (addReadings
                       [AddMedication (lit "Aspirin") (lit "100mg")
                                      (lit "daily") (lit "08:00")
                                      1700000000000;
                        CheckDue (jan1 21 0);
                        AddMedication (lit "Ibuprofen") (lit "200mg")
                                      (lit "weekly") (lit "21:15")
                                      1700000000500])).
  { simpl. constructor; [simpl; intros [E | []]; discriminate|].
    constructor; [simpl; tauto | constructor]. }
  split; [exact H|].
  exact (ids_distinct_when_readings_distinct _ H).
Defined.

(** ** The status column *)

(** Right after a run of the check, the table read at the same clock shows
    no medication as Pending whose time of day has been reached: Pending
    then means that the time test of the check fails, the time being still
    ahead or not a number. *)
Theorem no_overdue_pending_after_check
    (now : Date) (st : State) (m : Medication) :
  In m (medications (checkMedications now st)) ->
  status now m = Pending ->
  ~ timeReached now m.
Proof.
  intros Hin Hs Ht.
  rewrite checkMedications_medications in Hin.
  apply in_map_iff in Hin. destruct Hin as [m0 [E Hm0]].
  pose proof (dueGuard_after_check now m0) as G. rewrite E in G.
  apply ge_currentTime in Ht.
  unfold status in Hs. unfold dueGuard in G. rewrite Ht in G.
  destruct (takenToday (toLocaleDateString now) m); [discriminate|].
  destruct (missed m); discriminate.
Qed.

Lemma no_overdue_pending_after_check_witness :
  let st := mkState [aspirin] emptyForm false [] in
  In aspirin (medications (checkMedications (jan1 7 59) st)) /\
  status (jan1 7 59) aspirin = Pending /\
  ~ timeReached (jan1 7 59) aspirin.
Proof.
  split; [left; reflexivity|]. split; [reflexivity|].
  apply (no_overdue_pending_after_check (jan1 7 59)
           (mkState [aspirin] emptyForm false []) aspirin).
  - left; reflexivity.
  - reflexivity.
Defined.

(** After a take, every medication with the id shows Taken today for the
    rest of that date, flagged or not before, and a check on that date does
    not change what it shows. *)
Theorem taken_shows_taken_today
    (taken now : Date) (i : jsstring) (st : State) (m' : Medication) :
  toLocaleDateString taken = toLocaleDateString now ->
  In m' (medications (handleTakeMedication taken i st)) ->
  id m' = i ->
  status now m' = TakenToday /\
  status now (fst (checkMed now m')) = TakenToday.
Proof.
  intros Hday Hin Hid. unfold handleTakeMedication in Hin.
  cbn [medications] in Hin. apply in_map_iff in Hin.
  destruct Hin as [m [E Hm]].
  assert (Hl : lastTaken m' = Some (toLocaleDateString now)).
  { subst m'. destruct (str_eqb (id m) i) eqn:Ei.
    - simpl. rewrite Hday. reflexivity.
    - simpl in Hid. apply str_eqb_eq in Hid. congruence. }
  assert (Ht : takenToday (toLocaleDateString now) m' = true)
    by (apply takenToday_true; exact Hl).
  assert (Hs : status now m' = TakenToday) by (unfold status; rewrite Ht; reflexivity).
  split; [exact Hs|].
  rewrite checkMed_not_due; [exact Hs|].
  unfold dueGuard. rewrite Ht, andb_false_r. reflexivity.
Qed.

Lemma taken_shows_taken_today_witness :
  let st := mkState [with_missed aspirin true] emptyForm false
                    [notificationText aspirin] in
  let m' := with_taken aspirin (lit "1/1/2025") in
  toLocaleDateString (jan1 8 30) = toLocaleDateString (jan1 9 0) /\
  In m' (medications (handleTakeMedication (jan1 8 30) (id aspirin) st)) /\
  id m' = id aspirin /\
  status (jan1 9 0) m' = TakenToday /\
  status (jan1 9 0) (fst (checkMed (jan1 9 0) m')) = TakenToday.
Proof.
  split; [reflexivity|]. split; [left; reflexivity|]. split; [reflexivity|].
  apply (taken_shows_taken_today (jan1 8 30) (jan1 9 0) (id aspirin)
           (mkState [with_missed aspirin true] emptyForm false
                    [notificationText aspirin])
           (with_taken aspirin (lit "1/1/2025"))).
  - reflexivity.
  - left; reflexivity.
  - reflexivity.
Defined.

(** ** Desktop notifications *)

(** The callback with its desktop part returns the medications and the
    banners of the check; what it asks of the platform follows the banners
    one for one: with permission granted a notification titled Medication
    Reminder whose body is the banner's text, with permission undetermined a
    request for permission, and with permission denied nothing at all. *)
Theorem desktop_follows_banners
    (perm : Permission) (now : Date) (meds : list Medication) :
  fst (checkAllWithDesktop perm now meds) = checkAll now meds /\
  snd (checkAllWithDesktop perm now meds) =
    match perm with
    | PermissionGranted =>
        map (fun banner => NewNotification (lit "Medication Reminder") banner
                                           (lit "/vite.svg"))
            (snd (checkAll now meds))
    | PermissionDenied => []
    | PermissionDefault =>
        repeat RequestPermission (List.length (snd (checkAll now meds)))
    end.
Proof.
  induction meds as [|m meds [IH1 IH2]].
  - destruct perm; split; reflexivity.
  - cbn [checkAllWithDesktop checkAll].
    destruct (checkAllWithDesktop perm now meds) as [[rest' emitted'] effects'].
    destruct (checkAll now meds) as [rest0 emitted0].
    cbn [fst snd] in IH1, IH2. inversion IH1; subst rest0 emitted0.
    unfold checkMedWithDesktop, checkMed.
    destruct (_ && _); cbn [fst snd]; (split; [reflexivity|]).
    + subst effects'. destruct perm; reflexivity.
    + exact IH2.
Qed.

(** ** Reading the time of day *)

Lemma split_no_separator (sep : N) (s : jsstring) :
  ~ In sep s -> split sep s = [s].
Proof.
  induction s as [|c s IH]; intros H; simpl; [reflexivity|].
  destruct (N.eqb_spec c sep) as [-> | Hc].
  - exfalso. apply H. left. reflexivity.
  - rewrite IH; [reflexivity|]. intros Hin. apply H. right. exact Hin.
Qed.

(** A medication whose time holds no colon (the empty time of a cleared
    input, for one) is never due: at every clock reading the check returns
    it as it is and emits nothing for it. *)
Theorem time_without_colon_never_due (now : Date) (m : Medication) :
  ~ In 58%N (time m) -> checkMed now m = (m, []).
Proof.
  intros H. apply checkMed_not_due. unfold dueGuard, medicationTime.
  rewrite (split_no_separator 58 (time m) H). reflexivity.
Qed.

Lemma time_without_colon_never_due_witness :
  let m := mkMedication (lit "1") (lit "Zinc") (lit "5mg") (lit "daily")
                        [] None false in
  ~ In 58%N (time m) /\ checkMed (jan1 23 59) m = (m, []).
Proof.
  cbn zeta.
  assert (H : ~ In 58%N (time (mkMedication (lit "1") (lit "Zinc") (lit "5mg")
                                            (lit "daily") [] None false)))
    by (simpl; tauto).
  split; [exact H|].
  exact (time_without_colon_never_due (jan1 23 59) _ H).
Defined.

(** The value of a time input, two digits, a colon and two digits, is read
    as the minutes since midnight: sixty times the hour plus the minute,
    exactly. *)
Theorem time_input_value_in_minutes (h1 h2 m1 m2 : N) (m : Medication) :
  isDigit h1 = true -> isDigit h2 = true ->
  isDigit m1 = true -> isDigit m2 = true ->
  time m = [h1; h2; 58; m1; m2]%N ->
  medicationTime m =
    ofZ ((10 * (Z.of_N h1 - 48) + (Z.of_N h2 - 48)) * 60 +
         (10 * (Z.of_N m1 - 48) + (Z.of_N m2 - 48))).
Proof.
  intros H1 H2 H3 H4 E.
  exact (medicationTime_of_digits h1 h2 m1 m2 m H1 H2 H3 H4 E).
Qed.

Lemma time_input_value_in_minutes_witness :
  isDigit 48 = true /\ isDigit 56 = true /\
  isDigit 48 = true /\ isDigit 48 = true /\
  time aspirin = [48; 56; 58; 48; 48]%N /\
  medicationTime aspirin =
    ofZ ((10 * (Z.of_N 48 - 48) + (Z.of_N 56 - 48)) * 60 +
         (10 * (Z.of_N 48 - 48) + (Z.of_N 48 - 48))).
Proof.
  repeat (split; [reflexivity|]).
  apply (time_input_value_in_minutes 48 56 48 48 aspirin); reflexivity.
Defined.

(** ** What the check does not read *)

(** The frequency plays no part in the check: with any other frequency a
    medication is flagged at the same times and gets the same banner. *)
Theorem check_ignores_frequency (now : Date) (m : Medication) (f : jsstring) :
  checkMed now (with_frequency m f) =
  (with_frequency (fst (checkMed now m)) f, snd (checkMed now m)).
Proof.
  rewrite !checkMed_guard.
  change (dueGuard now (with_frequency m f)) with (dueGuard now m).
  destruct (dueGuard now m); reflexivity.
Qed.

(** ** Deleting and checking *)

Lemma filter_map_same {A} (p : A -> bool) (f : A -> A) (l : list A) :
  (forall x, p (f x) = p x) ->
  filter p (map f l) = map f (filter p l).
Proof.
  intros H. induction l as [|x l IH]; simpl; [reflexivity|].
  rewrite H. destruct (p x); simpl; rewrite IH; reflexivity.
Qed.

Lemma id_after_check (now : Date) (m : Medication) :
  id (fst (checkMed now m)) = id m.
Proof. rewrite checkMed_guard. destruct (dueGuard now m); reflexivity. Qed.

(** A deletion and a check leave the same medications in either order.
    The banners differ: a check made after the deletion emits none for the
    deleted medication, while a deletion made after the check leaves the
    banner the check emitted. *)
Theorem delete_and_check_commute_on_medications
    (now : Date) (i : jsstring) (st : State) :
  medications (checkMedications now (handleDeleteMedication i st)) =
  medications (handleDeleteMedication i (checkMedications now st)) /\
  notifications (handleDeleteMedication i (checkMedications now st)) =
    notifications st ++
    map notificationText (filter (dueGuard now) (medications st)) /\
  notifications (checkMedications now (handleDeleteMedication i st)) =
    notifications st ++
    map notificationText
        (filter (fun m => dueGuard now m && negb (str_eqb (id m) i))
                (medications st)).
Proof.
  split; [|split].
  - rewrite checkMedications_medications.
    unfold handleDeleteMedication, with_medications.
    cbn [medications]. rewrite checkMedications_medications.
    symmetry. apply filter_map_same. intros m.
    rewrite id_after_check. reflexivity.
  - unfold handleDeleteMedication, with_medications. cbn [notifications].
    rewrite checkMedications_notifications, concat_emitted_filter.
    reflexivity.
  - rewrite checkMedications_notifications, concat_emitted_filter.
    unfold handleDeleteMedication, with_medications.
    cbn [notifications medications]. f_equal. f_equal.
    induction (medications st) as [|m l IH]; simpl; [reflexivity|].
    destruct (str_eqb (id m) i); simpl.
    + rewrite andb_false_r. exact IH.
    + rewrite andb_true_r. destruct (dueGuard now m); rewrite IH; reflexivity.
Qed.

(** ** Typing into the form *)

